(** * radiogaga: a shallow embedding of [radiogaga.py]

    The development follows the Python source function by function.
    Python values are represented as follows.
    - [str] is [string]; every [ascii] stands for one code point below 256.
    - [int] is [Z].
    - [dict] (insertion ordered, keys unique) is an association list that is
      updated in place or extended at its end.
    - a local variable that may still be unbound is an [option].
    - a call that may raise returns a [result]. *)

From Stdlib Require Import ZArith Ascii.
From stdpp Require Import base strings pretty list.

(** ** Exceptions and results *)

Inductive exn : Type :=
  | UnboundLocalError (name : string)
  | TypeError
  | KeyError (key : string)
  | IndexError
  | AssertionError
  | FileNotFoundError
  | KeyboardInterrupt
  | EOFError.

Inductive result (A : Type) : Type :=
  | Ok (a : A)
  | Raise (e : exn).
Arguments Ok {A} a.
Arguments Raise {A} e.

Definition bind {A B : Type} (r : result A) (k : A → result B) : result B :=
  match r with
  | Ok a => k a
  | Raise e => Raise e
  end.

Notation "'let*' x ':=' r 'in' k" := (bind r (fun x => k))
  (at level 10, x name, r at level 100, k at level 200).

(** Reading a local variable: unbound names raise [UnboundLocalError]. *)
Definition read_local {A : Type} (name : string) (v : option A) : result A :=
  match v with
  | Some a => Ok a
  | None => Raise (UnboundLocalError name)
  end.

(** ** Python [str] operations used by the program *)

Module Str.

(** [str.isspace] on one code point below 256. *)
Definition isspace (c : ascii) : bool :=
  let n := Ascii.N_of_ascii c in
  ((9 <=? n) && (n <=? 13) || (28 <=? n) && (n <=? 32)
   || (n =? 133) || (n =? 160))%N.

(** [c in s] for a one-character needle. *)
Fixpoint contains (c : ascii) (s : string) : bool :=
  match s with
  | EmptyString => false
  | String a s' => Ascii.eqb a c || contains c s'
  end.

(** [s.lstrip()] *)
Fixpoint lstrip (s : string) : string :=
  match s with
  | EmptyString => EmptyString
  | String c s' => if isspace c then lstrip s' else s
  end.

(** [s.rstrip()] *)
Fixpoint rstrip (s : string) : string :=
  match s with
  | EmptyString => EmptyString
  | String c s' =>
      match rstrip s' with
      | EmptyString => if isspace c then EmptyString else String c EmptyString
      | r => String c r
      end
  end.

(** [s.strip()] *)
Definition strip (s : string) : string := rstrip (lstrip s).

Definition starts_word (s : string) : bool :=
  match s with
  | EmptyString => false
  | String c _ => negb (isspace c)
  end.

(** [s.split()]: the maximal runs of non-whitespace, in order. *)
Fixpoint split (s : string) : list string :=
  match s with
  | EmptyString => []
  | String c s' =>
      if isspace c then split s'
      else if starts_word s' then
        match split s' with
        | w :: ws => String c w :: ws
        | [] => [String c EmptyString]
        end
      else String c EmptyString :: split s'
  end.

(** [sep.join(l)] *)
Fixpoint join (sep : string) (l : list string) : string :=
  match l with
  | [] => EmptyString
  | [w] => w
  | w :: ws => w +:+ sep +:+ join sep ws
  end.

(** [s[n:]] for [n >= 0] *)
Fixpoint slice_from (n : nat) (s : string) : string :=
  match n, s with
  | O, _ => s
  | S _, EmptyString => EmptyString
  | S n', String _ s' => slice_from n' s'
  end.

(** [len(s)] *)
Definition len (s : string) : Z := Z.of_nat (String.length s).

End Str.

(** ** Python [dict] from [str] to [str] *)

Definition pydict (V : Type) : Type := list (string * V).

(** The catalog and the other [str]-valued tables. *)
Definition dict : Type := pydict string.

(** [d.get(k)] *)
Fixpoint dict_get {V : Type} (k : string) (d : pydict V) : option V :=
  match d with
  | [] => None
  | (k', v) :: d' => if String.eqb k' k then Some v else dict_get k d'
  end.

(** [k in d] *)
Definition dict_mem {V : Type} (k : string) (d : pydict V) : bool :=
  match dict_get k d with
  | Some _ => true
  | None => false
  end.

(** [d[k] = v] *)
Fixpoint dict_set {V : Type} (k : string) (v : V) (d : pydict V) : pydict V :=
  match d with
  | [] => [(k, v)]
  | (k', v') :: d' =>
      if String.eqb k' k then (k, v) :: d' else (k', v') :: dict_set k v d'
  end.

(** [list(d)] *)
Definition dict_keys {V : Type} (d : pydict V) : list string := map fst d.

(** [d[k]] *)
Definition dict_index {V : Type} (d : pydict V) (k : string) : result V :=
  match dict_get k d with
  | Some v => Ok v
  | None => Raise (KeyError k)
  end.

(** [l[i]] for [i >= 0] *)
Definition list_index {A : Type} (l : list A) (i : nat) : result A :=
  match l !! i with
  | Some a => Ok a
  | None => Raise IndexError
  end.

(** ** Module constants *)

(** A compiled regular expression is used only through the truth value of
    [search] (or [match]) on a string. *)
Definition Pattern : Type := string → bool.

(** [URL_PATTERN.match(s)] for [URL_PATTERN = re.compile(r"https?://")]. *)
Definition URL_PATTERN_match : Pattern :=
  fun s => String.prefix "http://" s || String.prefix "https://" s.

Definition alnum (c : ascii) : bool :=
  let n := Ascii.N_of_ascii c in
  ((48 <=? n) && (n <=? 57) || (65 <=? n) && (n <=? 90)
   || (97 <=? n) && (n <=? 122))%N.

(** [re.compile(r"[^A-Za-z0-9]lofi[^A-Za-z0-9]").search(s)] *)
Fixpoint lofi_search (s : string) : bool :=
  match s with
  | EmptyString => false
  | String c s' =>
      (negb (alnum c) && String.prefix "lofi" s'
       && match Str.slice_from 4 s' with
          | String d _ => negb (alnum d)
          | EmptyString => false
          end)
      || lofi_search s'
  end.

Definition EXCLUDE_HREF_PATTERNS : list Pattern := [lofi_search].

Definition DEFAULT_MEDIA_PLAYER : string := "mpv".
Definition MEDIA_PLAYERS_DEFAULT_ARGS : dict := [("mpv", "--no-video"); ("vlc", "")].

(** ** [download_radio_stations_urls] *)

(** One element of [links]: [link.text] and [link["href"]].  [find_all] keeps
    only anchors that carry an [href]. *)
Record Anchor : Type := { text : string; href : string }.

(** The local variables of [download_radio_stations_urls]. *)
Record locals : Type := {
  radio_stations : dict;
  station : option string;
  count : option Z;
}.

(** [any(pattern.search(href) for pattern in exclude_href_patterns)];
    the parameter defaults to [None], which is not iterable. *)
Definition any_search (exclude_href_patterns : option (list Pattern))
    (href : string) : result bool :=
  match exclude_href_patterns with
  | None => Raise TypeError
  | Some patterns => Ok (existsb (fun pattern => pattern href) patterns)
  end.

(** The body of [for link in links]. *)
Definition loop_body (exclude_href_patterns : option (list Pattern))
    (st : locals) (link : Anchor) : result locals :=
  if negb (URL_PATTERN_match (text link)) then
    Ok {| radio_stations := radio_stations st;
          station := Some (text link);
          count := Some 1%Z |}
  else
    let href := href link in
    let* excluded := any_search exclude_href_patterns href in
    if excluded : bool then Ok st
    else
      let* name := read_local "station" (station st) in
      if dict_mem name (radio_stations st) then
        let* c := read_local "count" (count st) in
        let c' := (c + 1)%Z in
        Ok {| radio_stations :=
                dict_set (name +:+ " " +:+ pretty c') href (radio_stations st);
              station := Some name;
              count := Some c' |}
      else
        Ok {| radio_stations := dict_set name href (radio_stations st);
              station := Some name;
              count := count st |}.

Fixpoint for_links (exclude_href_patterns : option (list Pattern))
    (links : list Anchor) (st : locals) : result locals :=
  match links with
  | [] => Ok st
  | link :: rest =>
      let* st' := loop_body exclude_href_patterns st link in
      for_links exclude_href_patterns rest st'
  end.

Definition initial_locals : locals :=
  {| radio_stations := []; station := None; count := None |}.

(** [links] stands for the result of [soup.find_all("a", attrs=attrs)]. *)
Definition download_radio_stations_urls (links : list Anchor)
    (exclude_href_patterns : option (list Pattern)) : result dict :=
  let* st := for_links exclude_href_patterns links initial_locals in
  Ok (radio_stations st).

(** ** The fuzzy matcher *)

Module FuzzyMatcher.

(** Lower-casing of one code point below 256. *)
Definition lower (c : ascii) : ascii :=
  let n := Ascii.N_of_ascii c in
  if ((65 <=? n) && (n <=? 90)
      || (192 <=? n) && (n <=? 222) && negb (n =? 215))%N
  then Ascii.ascii_of_N (n + 32) else c.

(** All characters of [query], in order, occur in [candidate], case
    being ignored. *)
Fixpoint subsequence (query candidate : string) : bool :=
  match candidate with
  | EmptyString =>
      match query with
      | EmptyString => true
      | String _ _ => false
      end
  | String c candidate' =>
      match query with
      | EmptyString => true
      | String q query' =>
          if Ascii.eqb (lower q) (lower c) then subsequence query' candidate'
          else subsequence query candidate'
      end
  end.

(** Modelled from the spec: the body of [fuzzyfinder], which the program
    imports from the [fuzzyfinder] package and which is not part of the
    sources.  Section 4.2: a candidate matches if all characters of the
    query, in order, appear as a subsequence of the candidate,
    case-insensitive; the result is the filtered candidate sequence in its
    original relative order. *)
Definition fuzzyfinder (query : string) (collection : list string)
    : list string :=
  List.filter (subsequence query) collection.

(** Modelled from the spec: the call [fuzzyfinder(input, collection)] as
    the program performs it, where [input] may be [None].  Section 4.2
    defines the match for a string query and is silent on a nil one; the
    package turns an input that is not a string into its text, so [None] is
    matched as the query [None] spelled out, and the call returns. *)
Definition call (input : option string) (collection : list string)
    : result (list string) :=
  match input with
  | Some query => Ok (fuzzyfinder query collection)
  | None => Ok (fuzzyfinder "None" collection)
  end.

End FuzzyMatcher.

(** ** Completion *)

(** What [get_completions] reads from its [document]. *)
Record Document : Type := {
  current_line_before_cursor : string;
  cursor_position : Z;
  (** [document.get_word_before_cursor(WORD=True)] *)
  word_before_cursor : string;
}.

(** A [Completion] object. *)
Record Completion : Type := {
  completion_text : string;
  start_position : Z;
  display_meta : option string;
}.

(** [Completion(text, start_position, display_meta=...)]: the constructor
    asserts [start_position <= 0]. *)
Definition Completion_init (text : string) (start_position : Z)
    (display_meta : option string) : result Completion :=
  if (0 <? start_position)%Z then Raise AssertionError
  else Ok {| completion_text := text; start_position := start_position;
             display_meta := display_meta |}.

(** Side effects of the command handlers. *)
Inductive event : Type :=
  | Print (line : string)
  | SubprocessRun (cmd_line : list string)
  | EchoViaPager (text : string).

(** A handler of the [COMMANDS] table: its output and how it returned. *)
Definition handler : Type := dict → option string → list event * result unit.

(** [f"{v}"] for a value that is a string or [None]. *)
Definition fmt (v : option string) : string :=
  match v with
  | Some s => s
  | None => "None"
  end.

(** [fmt_player_cmd] *)
Definition fmt_player_cmd (player player_args url : string) : string :=
  player +:+ " " +:+ player_args +:+ " " +:+ url.

(** [parse_user_input]; [splitted_user_input[0]] is the only step that can
    raise. *)
Definition parse_user_input (user_input : string)
    : result (string * option string) :=
  let stripped_user_input := Str.strip user_input in
  if Str.contains " " stripped_user_input then
    let splitted_user_input := Str.split stripped_user_input in
    let* command := list_index splitted_user_input 0 in
    Ok (command, Some (Str.join " " (drop 1 splitted_user_input)))
  else Ok (stripped_user_input, None).

Section Program.

(** The imported [fuzzyfinder] function, the global [PLAYER], and what
    [subprocess.run] does with an argument list: it returns once the child
    has exited, or raises (the executable is missing, the user interrupts). *)
Variable fuzzyfinder : option string → list string → result (list string).
Variable PLAYER : string.
Variable subprocess_run : list string → result unit.

(** [station_name in radio_stations]; [None] is never a key. *)
Definition known (radio_stations : dict) (station_name : option string)
    : bool :=
  match station_name with
  | Some name => dict_mem name radio_stations
  | None => false
  end.

(** [radio_stations[station_name]] *)
Definition index (radio_stations : dict) (station_name : option string)
    : result string :=
  match station_name with
  | Some name => dict_index radio_stations name
  | None => Raise (KeyError "None")
  end.

(** [command_play] *)
Definition command_play : handler := fun radio_stations station_name =>
  if negb (known radio_stations station_name) then
    ([Print ("Unkwnon station: " +:+ fmt station_name)], Ok tt)
  else
    match
      let* url := index radio_stations station_name in
      let* player_args := dict_index MEDIA_PLAYERS_DEFAULT_ARGS PLAYER in
      Ok (Str.split (fmt_player_cmd PLAYER player_args url))
    with
    | Ok cmd_line => ([SubprocessRun cmd_line], subprocess_run cmd_line)
    | Raise e => ([], Raise e)
    end.

(** [command_info] *)
Definition command_info : handler := fun radio_stations station_name =>
  if negb (known radio_stations station_name) then
    ([Print ("Unkwnon station: " +:+ fmt station_name)], Ok tt)
  else
    let url :=
      match station_name with
      | Some name => default "Unknown" (dict_get name radio_stations)
      | None => "Unknown"
      end in
    ([Print (fmt station_name +:+ ": " +:+ url)], Ok tt).

(** [command_search] *)
Definition command_search : handler := fun radio_stations station_name =>
  match fuzzyfinder station_name (dict_keys radio_stations) with
  | Ok matches => ([EchoViaPager (Str.join (String "010" "") matches)], Ok tt)
  | Raise e => ([], Raise e)
  end.

Definition COMMANDS : pydict handler :=
  [("play", command_play); ("listen", command_play);
   ("show", command_info); ("info", command_info);
   ("search", command_search)].

(** [RadioCompleter]: [self.commands] and [self.stations]. *)
Record RadioCompleter : Type := {
  commands : pydict handler;
  stations : dict;
}.

(** The completions yielded in station mode, in order. *)
Fixpoint yield_stations (self : RadioCompleter) (start : Z)
    (matches : list string) : result (list Completion) :=
  match matches with
  | [] => Ok []
  | m :: rest =>
      let* meta := dict_index (stations self) m in
      let* c := Completion_init m start (Some meta) in
      let* tail := yield_stations self start rest in
      Ok (c :: tail)
  end.

(** The completions yielded in command mode, in order. *)
Fixpoint yield_commands (start : Z) (matches : list string)
    : result (list Completion) :=
  match matches with
  | [] => Ok []
  | m :: rest =>
      let* c := Completion_init m start None in
      let* tail := yield_commands start rest in
      Ok (c :: tail)
  end.

(** [RadioCompleter.get_completions] *)
Definition get_completions (self : RadioCompleter) (document : Document)
    : result (list Completion) :=
  let text_before_cursor := current_line_before_cursor document in
  let text_before_cursor_stripped := Str.lstrip text_before_cursor in
  if Str.contains " " text_before_cursor then
    let stripped_len :=
      (Str.len text_before_cursor - Str.len text_before_cursor_stripped)%Z in
    let* command := list_index (Str.split text_before_cursor) 0 in
    if dict_mem command (commands self) then
      let offset_stations_string := (stripped_len + Str.len command + 1)%Z in
      let search_for :=
        Str.slice_from (Z.to_nat offset_stations_string) text_before_cursor in
      let* matches := fuzzyfinder (Some search_for) (dict_keys (stations self)) in
      yield_stations self
        (- (cursor_position document - offset_stations_string))%Z matches
    else Ok []
  else
    let word := word_before_cursor document in
    let* matches := fuzzyfinder (Some word) (dict_keys (commands self)) in
    yield_commands (- Str.len word)%Z matches.

(** *** The read-eval loop of [main] *)

(** How one pass through the [while True] body ends. *)
Inductive control : Type :=
  | Continue
  | Break
  | Propagate (e : exn).

(** The [try] block: [prompt_result] is what [prompt(...)] returned or
    raised. *)
Definition try_body (radio_stations : dict) (prompt_result : result string)
    : list event * result unit :=
  match
    let* user_input := prompt_result in
    parse_user_input user_input
  with
  | Raise e => ([], Raise e)
  | Ok (command, station_name) =>
      if dict_mem command COMMANDS then
        match dict_index COMMANDS command with
        | Ok h => h radio_stations station_name
        | Raise e => ([], Raise e)
        end
      else ([], Ok tt)
  end.

(** The [except] clauses. *)
Definition iteration (radio_stations : dict) (prompt_result : result string)
    : list event * control :=
  match try_body radio_stations prompt_result with
  | (out, Ok _) => (out, Continue)
  | (out, Raise KeyboardInterrupt) => (out, Continue)
  | (out, Raise EOFError) => (out, Break)
  | (out, Raise e) => (out, Propagate e)
  end.

(** How the loop of [main] stands after a script of prompt results. *)
Inductive loop_state : Type :=
  | AwaitingInput
  | Stopped
  | Crashed (e : exn).

(** The loop run against a finite script of prompt results; the second
    component counts the prompts that were consumed. *)
Fixpoint repl (radio_stations : dict) (script : list (result string))
    : list event * nat * loop_state :=
  match script with
  | [] => ([], O, AwaitingInput)
  | prompt_result :: rest =>
      match iteration radio_stations prompt_result with
      | (out, Continue) =>
          let '(out', n, s) := repl radio_stations rest in
          (out ++ out', S n, s)
      | (out, Break) => (out, 1, Stopped)
      | (out, Propagate e) => (out, 1, Crashed e)
      end
  end.

End Program.

(** ** Vocabulary of the statements *)

(** The anchor is a stream link: its text looks like a URL. *)
Definition is_stream (link : Anchor) : bool := URL_PATTERN_match (text link).

(** Some exclude pattern matches the href. *)
Definition excluded (patterns : list Pattern) (url : string) : bool :=
  existsb (fun pattern => pattern url) patterns.

(** The anchor is a stream link that the exclude patterns discard. *)
Definition discarded (patterns : list Pattern) (link : Anchor) : bool :=
  is_stream link && excluded patterns (href link).

(** The key [f"{name} {c}"]. *)
Definition suffixed_key (name : string) (c : Z) : string :=
  name +:+ " " +:+ pretty c.

(** The entries [name c], [name c+1], ... for the given urls. *)
Fixpoint suffixed (name : string) (c : Z) (urls : list string) : dict :=
  match urls with
  | [] => []
  | u :: rest => (suffixed_key name c, u) :: suffixed name (c + 1) rest
  end.

(** The entries [name], [name 2], ..., [name N] for the given urls. *)
Definition numbered (name : string) (urls : list string) : dict :=
  match urls with
  | [] => []
  | u :: rest => (name, u) :: suffixed name 2 rest
  end.

(** The station names under which the links of [links] can be filed when the
    loop starts in state [st]. *)
Definition headers_of (st : locals) (links : list Anchor) : list string :=
  option_list (station st)
  ++ map text (List.filter (fun l => negb (is_stream l)) links).

(** Every character of [s] is whitespace. *)
Fixpoint all_space (s : string) : bool :=
  match s with
  | EmptyString => true
  | String c s' => Str.isspace c && all_space s'
  end.

(** Some character of [s] is whitespace. *)
Fixpoint has_whitespace (s : string) : bool :=
  match s with
  | EmptyString => false
  | String c s' => Str.isspace c || has_whitespace s'
  end.

(** A non-empty string without whitespace. *)
Definition word (s : string) : Prop := s ≠ "" ∧ has_whitespace s = false.

(** The rule of section 4.4 of the specification, written from its words, to
    be compared with [parse_user_input]. *)
Module InputParser.

(** The characters before the first whitespace. *)
Fixpoint first_token (s : string) : string :=
  match s with
  | EmptyString => EmptyString
  | String c s' =>
      if Str.isspace c then EmptyString else String c (first_token s')
  end.

(** What is left from the first whitespace on. *)
Fixpoint after_first_token (s : string) : string :=
  match s with
  | EmptyString => EmptyString
  | String c s' => if Str.isspace c then s else after_first_token s'
  end.

(** Trim; without internal whitespace the trimmed line is the command and
    there is no argument; otherwise the command is the token before the
    first run of whitespace and the argument is what follows, rejoined with
    single spaces. *)
Definition parse (line : string) : string * option string :=
  let trimmed := Str.strip line in
  if has_whitespace trimmed then
    (first_token trimmed,
     Some (Str.join " " (Str.split (after_first_token trimmed))))
  else (trimmed, None).

End InputParser.

(** Every value stored by one pass of the loop is an href that no pattern
    excludes. *)
Definition clean (patterns : list Pattern) (d : dict) : Prop :=
  ∀ k v, (k, v) ∈ d → excluded patterns v = false.

(** A stream link that no pattern excludes. *)
Definition kept (patterns : list Pattern) (link : Anchor) : Prop :=
  is_stream link = true ∧ excluded patterns (href link) = false.

(** The key [k] is not the suffixed form of the station name [name], or it is
    that name itself. *)
Definition safe_from (k name : string) : Prop :=
  name = k ∨ ∀ c, k ≠ suffixed_key name c.

(** The claim of C4 as it is stated: whatever is bound after a prefix of the
    anchor sequence is still bound to the same url at the end. *)
Definition entries_never_replaced
    (patterns : option (list Pattern)) (links : list Anchor) : Prop :=
  ∀ pre post st st' k u,
    links = pre ++ post →
    for_links patterns pre initial_locals = Ok st →
    for_links patterns post st = Ok st' →
    dict_get k (radio_stations st) = Some u →
    dict_get k (radio_stations st') = Some u.

(** The same for the bare station names only. *)
Definition bare_names_never_replaced
    (patterns : option (list Pattern)) (links : list Anchor) : Prop :=
  ∀ pre post st st' k u,
    links = pre ++ post →
    for_links patterns pre initial_locals = Ok st →
    for_links patterns post st = Ok st' →
    k ∈ headers_of initial_locals links →
    dict_get k (radio_stations st) = Some u →
    dict_get k (radio_stations st') = Some u.

(** A stream link that no pattern excludes, as a test. *)
Definition keptb (patterns : list Pattern) (link : Anchor) : bool :=
  is_stream link && negb (excluded patterns (href link)).

(** The key [k] is one of the station names [names] or one of their suffixed
    forms [name c] with [c] at least 2. *)
Definition key_of_header (names : list string) (k : string) : Prop :=
  ∃ name, name ∈ names ∧ (k = name ∨ ∃ c, (2 ≤ c)%Z ∧ k = suffixed_key name c).

(** Both [station] and [count] are bound. *)
Definition bound (st : locals) : Prop :=
  is_Some (station st) ∧ is_Some (count st).


(** ** The embedding on sample inputs *)

Example strip_sample :
  Str.strip "  play   France Inter  " = "play   France Inter".
Proof. reflexivity. Qed.

Example split_sample :
  Str.split ("  play " +:+ String "009" " France" +:+ String "010" "Inter  ")
  = ["play"; "France"; "Inter"].
Proof. reflexivity. Qed.

Example join_sample : Str.join " " ["France"; "Inter"] = "France Inter".
Proof. reflexivity. Qed.

Example url_pattern_sample :
  URL_PATTERN_match "https://direct.example/a.mp3" = true
  ∧ URL_PATTERN_match "http://direct.example/a.mp3" = true
  ∧ URL_PATTERN_match "France Inter" = false
  ∧ URL_PATTERN_match "see http://direct.example/" = false.
Proof. by repeat split. Qed.

Example lofi_sample :
  lofi_search "http://direct.example/-lofi-/a.mp3" = true
  ∧ lofi_search "http://direct.example/lofi" = false
  ∧ lofi_search "http://direct.example/hilofi2" = false.
Proof. by repeat split. Qed.

Example suffixed_key_sample : suffixed_key "France Inter" 12 = "France Inter 12".
Proof. reflexivity. Qed.

Example download_sample :
  download_radio_stations_urls
    [ {| text := "FIP"; href := "https://www.example.fr/fip" |};
      {| text := "http://direct.example/fip.mp3";
         href := "http://direct.example/fip.mp3" |};
      {| text := "http://direct.example/fip-lofi.mp3";
         href := "http://direct.example/fip-lofi.mp3" |};
      {| text := "http://direct.example/fip.aac";
         href := "http://direct.example/fip.aac" |};
      {| text := "Nova"; href := "https://www.example.fr/nova" |};
      {| text := "https://direct.example/nova.mp3";
         href := "https://direct.example/nova.mp3" |} ]
    (Some EXCLUDE_HREF_PATTERNS)
  = Ok [("FIP", "http://direct.example/fip.mp3");
        ("FIP 2", "http://direct.example/fip.aac");
        ("Nova", "https://direct.example/nova.mp3")].
Proof. reflexivity. Qed.

Example download_default_patterns_sample :
  download_radio_stations_urls
    [ {| text := "FIP"; href := "https://www.example.fr/fip" |};
      {| text := "http://direct.example/fip.mp3";
         href := "http://direct.example/fip.mp3" |} ]
    None
  = Raise TypeError.
Proof. reflexivity. Qed.

Example repl_sample :
  repl FuzzyMatcher.call "mpv" (fun _ => Ok tt)
    [("FIP", "http://direct.example/fip.mp3");
     ("Nova", "https://direct.example/nova.mp3")]
    [Ok "search fp"; Ok "frobnicate"; Ok " listen  Nova "; Raise KeyboardInterrupt;
     Ok "info"; Ok "show FIP"; Raise EOFError; Ok "play FIP"]
  = ([EchoViaPager "FIP";
      SubprocessRun ["mpv"; "--no-video"; "https://direct.example/nova.mp3"];
      Print "Unkwnon station: None";
      Print "FIP: http://direct.example/fip.mp3"],
     7%nat, Stopped).
Proof. reflexivity. Qed.

Example command_mode_sample :
  get_completions FuzzyMatcher.call
    {| commands := COMMANDS FuzzyMatcher.call "mpv" (fun _ => Ok tt); stations := [] |}
    {| current_line_before_cursor := "pl";
       cursor_position := 2;
       word_before_cursor := "pl" |}
  = Ok [ {| completion_text := "play"; start_position := -2;
            display_meta := None |} ].
Proof. reflexivity. Qed.

(** ** Lemmas on strings *)

Lemma app_cons (a : ascii) (s1 s2 : string) :
  String a s1 +:+ s2 = String a (s1 +:+ s2).
Proof. reflexivity. Qed.

Lemma app_empty (s : string) : "" +:+ s = s.
Proof. reflexivity. Qed.

Lemma length_app (s1 s2 : string) :
  String.length (s1 +:+ s2) = String.length s1 + String.length s2.
Proof.
  induction s1 as [|a s1 IH]; [done|].
  rewrite app_cons. simpl. by rewrite IH.
Qed.

Lemma suffixed_key_inj (name : string) (a b : Z) :
  suffixed_key name a = suffixed_key name b → a = b.
Proof.
  unfold suffixed_key. intros H.
  apply (inj (String.app name)) in H.
  apply (inj (String.app " ")) in H.
  by apply (inj pretty) in H.
Qed.

Lemma suffixed_key_ne_name (name : string) (c : Z) :
  suffixed_key name c ≠ name.
Proof.
  unfold suffixed_key. intros H. apply (f_equal String.length) in H.
  rewrite !length_app in H. simpl in H. lia.
Qed.

(** ** Lemmas on dictionaries *)

Section DictFacts.
Context {V : Type}.
Implicit Types (d : pydict V) (k : string) (v : V).

Lemma dict_get_set_eq k v d : dict_get k (dict_set k v d) = Some v.
Proof.
  induction d as [|[k' v'] d IH]; simpl.
  - by rewrite String.eqb_refl.
  - destruct (String.eqb k' k) eqn:E; simpl.
    + by rewrite String.eqb_refl.
    + by rewrite E.
Qed.

Lemma dict_get_set_ne k k' v d :
  k ≠ k' → dict_get k' (dict_set k v d) = dict_get k' d.
Proof.
  intros Hne. induction d as [|[k0 v0] d IH]; simpl.
  - destruct (String.eqb k k') eqn:E; [|done].
    by apply String.eqb_eq in E.
  - destruct (String.eqb k0 k) eqn:E; simpl.
    + apply String.eqb_eq in E as ->.
      destruct (String.eqb k k') eqn:E'; [|done].
      by apply String.eqb_eq in E'.
    + by rewrite IH.
Qed.

Lemma dict_set_fresh k v d :
  dict_get k d = None → dict_set k v d = d ++ [(k, v)].
Proof.
  induction d as [|[k' v'] d IH]; simpl; [done|].
  destruct (String.eqb k' k); [done|]. intros H. by rewrite IH.
Qed.

Lemma dict_get_app k d1 d2 :
  dict_get k (d1 ++ d2)
  = match dict_get k d1 with Some v => Some v | None => dict_get k d2 end.
Proof.
  induction d1 as [|[k' v'] d1 IH]; simpl; [done|].
  by destruct (String.eqb k' k).
Qed.

Lemma dict_set_entries k v d kv :
  kv ∈ dict_set k v d → kv = (k, v) ∨ kv ∈ d.
Proof.
  induction d as [|[k' v'] d IH]; simpl.
  - intros ->%list_elem_of_singleton. by left.
  - destruct (String.eqb k' k).
    + intros [->|?]%elem_of_cons; [by left|]. right. by apply elem_of_cons; right.
    + intros [->|H]%elem_of_cons.
      * right. by apply elem_of_cons; left.
      * destruct (IH H) as [->|?]; [by left|]. right. by apply elem_of_cons; right.
Qed.

Lemma dict_get_nodup k v d (i : nat) :
  NoDup (dict_keys d) → d !! i = Some (k, v) → dict_get k d = Some v.
Proof.
  revert i. induction d as [|[k' v'] d IH]; intros i Hnd Hi; [done|].
  apply NoDup_cons in Hnd as [Hk' Hnd]. destruct i as [|i]; simpl in *.
  - injection Hi as -> ->. by rewrite String.eqb_refl.
  - destruct (String.eqb k' k) eqn:E; [|by eapply IH].
    apply String.eqb_eq in E as ->. destruct Hk'.
    apply list_elem_of_fmap. exists (k, v). split; [done|].
    by eapply list_elem_of_lookup_2.
Qed.

Lemma dict_mem_true k d : dict_mem k d = true ↔ is_Some (dict_get k d).
Proof.
  unfold dict_mem. destruct (dict_get k d); split;
    first [done | by eexists | by intros [? ?]].
Qed.

Lemma dict_mem_false k d : dict_mem k d = false ↔ dict_get k d = None.
Proof. unfold dict_mem. by destruct (dict_get k d). Qed.

End DictFacts.

(** ** Lemmas on the extraction loop *)

Lemma for_links_app patterns l1 l2 st :
  for_links patterns (l1 ++ l2) st
  = let* st' := for_links patterns l1 st in for_links patterns l2 st'.
Proof.
  revert st. induction l1 as [|a l1 IH]; intros st; simpl; [done|].
  destruct (loop_body patterns st a); simpl; [apply IH|done].
Qed.

(** A discarded link leaves every local variable as it was. *)
Lemma loop_body_discarded patterns st link :
  discarded patterns link = true →
  loop_body (Some patterns) st link = Ok st.
Proof.
  unfold discarded, is_stream, excluded, loop_body.
  intros [Hs He]%andb_true_iff. rewrite Hs. simpl. by rewrite He.
Qed.


Lemma for_links_discarded patterns pre rest st :
  Forall (fun l => discarded patterns l = true) pre →
  for_links (Some patterns) (pre ++ rest) st
  = for_links (Some patterns) rest st.
Proof.
  induction 1 as [|l pre Hl _ IH]; simpl; [done|].
  by rewrite loop_body_discarded.
Qed.

Lemma for_links_filter patterns links st :
  for_links (Some patterns) links st
  = for_links (Some patterns)
      (List.filter (fun l => negb (discarded patterns l)) links) st.
Proof.
  revert st. induction links as [|l links IH]; intros st; simpl; [done|].
  destruct (discarded patterns l) eqn:E; simpl.
  - rewrite loop_body_discarded by done. simpl. apply IH.
  - destruct (loop_body (Some patterns) st l); simpl; [apply IH|done].
Qed.

Lemma loop_body_clean patterns st link st' :
  loop_body (Some patterns) st link = Ok st' →
  clean patterns (radio_stations st) → clean patterns (radio_stations st').
Proof.
  unfold loop_body. destruct (negb (URL_PATTERN_match (text link))).
  { by intros [= <-]. }
  simpl. fold (excluded patterns (href link)).
  destruct (excluded patterns (href link)) eqn:He.
  { by intros [= <-]. }
  destruct (station st) as [name|]; simpl; [|done].
  destruct (dict_mem name (radio_stations st));
    [destruct (count st) as [c|]; simpl; [|done]|];
    intros [= <-] Hc k v [[= -> ->]|?]%dict_set_entries; simpl in *; eauto.
Qed.

Lemma for_links_clean patterns links st st' :
  for_links (Some patterns) links st = Ok st' →
  clean patterns (radio_stations st) → clean patterns (radio_stations st').
Proof.
  revert st. induction links as [|l links IH]; intros st; simpl.
  - by intros [= <-].
  - destruct (loop_body (Some patterns) st l) as [st1|] eqn:E; simpl; [|done].
    intros H Hc. eapply IH; [done|]. by eapply loop_body_clean.
Qed.

(** ** Stream links that precede every station header *)

(** C1. The claim asks that extraction never raises when a stream link comes
    before any station header.  The loop reads [station] before it was ever
    assigned: for every anchor sequence whose first anchor that is not
    discarded by the exclude patterns is a stream link, the call raises
    [UnboundLocalError] for [station] instead of skipping the link. *)
Theorem link_before_header_raises
    (patterns : list Pattern) (pre rest : list Anchor) (link : Anchor) :
  Forall (fun l => discarded patterns l = true) pre →
  is_stream link = true →
  excluded patterns (href link) = false →
  download_radio_stations_urls (pre ++ link :: rest) (Some patterns)
  = Raise (UnboundLocalError "station").
Proof.
  intros Hpre Hs He. unfold download_radio_stations_urls.
  rewrite for_links_discarded by done. simpl.
  unfold loop_body. unfold is_stream in Hs. rewrite Hs. simpl.
  fold (excluded patterns (href link)). by rewrite He.
Qed.

Lemma link_before_header_raises_witness :
  download_radio_stations_urls
    [ {| text := "http://stream.example/lofi.mp3";
         href := "http://stream.example/-lofi-" |};
      {| text := "https://stream.example/live.mp3";
         href := "https://stream.example/live.mp3" |};
      {| text := "Radio One"; href := "https://radio.example/" |} ]
    (Some EXCLUDE_HREF_PATTERNS)
  = Raise (UnboundLocalError "station").
Proof.
  apply (link_before_header_raises EXCLUDE_HREF_PATTERNS
           [ {| text := "http://stream.example/lofi.mp3";
                href := "http://stream.example/-lofi-" |} ]).
  - repeat constructor.
  - reflexivity.
  - reflexivity.
Defined.

(** ** Excluded links *)

(** C3. A link whose href matches an exclude pattern is never a value of the
    resulting catalog, and discarding it changes no local variable, the
    occurrence counter included: extraction gives the same outcome as on the
    anchor sequence from which the discarded links were removed, so the next
    kept link takes the counter slot. *)
Theorem excluded_links_leave_no_trace
    (patterns : list Pattern) (links : list Anchor) :
  (∀ catalog,
     download_radio_stations_urls links (Some patterns) = Ok catalog →
     ∀ name url, (name, url) ∈ catalog → excluded patterns url = false)
  ∧ (∀ st link, discarded patterns link = true →
       loop_body (Some patterns) st link = Ok st)
  ∧ download_radio_stations_urls
      (List.filter (fun l => negb (discarded patterns l)) links)
      (Some patterns)
    = download_radio_stations_urls links (Some patterns).
Proof.
  split; [|split].
  - intros catalog Hrun. unfold download_radio_stations_urls in Hrun.
    destruct (for_links (Some patterns) links initial_locals) as [st|] eqn:E;
      simpl in Hrun; [|done].
    injection Hrun as <-.
    eapply (for_links_clean _ _ _ _ E). intros k v H. by apply elem_of_nil in H.
  - intros st link. apply loop_body_discarded.
  - unfold download_radio_stations_urls. by rewrite <- for_links_filter.
Qed.

Lemma excluded_links_leave_no_trace_witness :
  (∀ name url,
     (name, url) ∈ [("Chill", "http://chill.example/a");
                    ("Chill 2", "http://chill.example/b")] →
     excluded EXCLUDE_HREF_PATTERNS url = false)
  ∧ loop_body (Some EXCLUDE_HREF_PATTERNS)
      {| radio_stations := [("Chill", "http://chill.example/a")];
         station := Some "Chill"; count := Some 1%Z |}
      {| text := "http://chill.example/lofi";
         href := "http://chill.example/-lofi-" |}
    = Ok {| radio_stations := [("Chill", "http://chill.example/a")];
            station := Some "Chill"; count := Some 1%Z |}.
Proof.
  split.
  - apply (proj1 (excluded_links_leave_no_trace EXCLUDE_HREF_PATTERNS
      [ {| text := "Chill"; href := "http://chill.example/" |};
        {| text := "http://chill.example/a"; href := "http://chill.example/a" |};
        {| text := "http://chill.example/lofi";
           href := "http://chill.example/-lofi-" |};
        {| text := "http://chill.example/b"; href := "http://chill.example/b" |} ])).
    reflexivity.
  - apply (proj1 (proj2 (excluded_links_leave_no_trace EXCLUDE_HREF_PATTERNS []))).
    reflexivity.
Defined.

(** ** One header followed by its links *)

Lemma suffixed_keys name c urls k :
  k ∈ dict_keys (suffixed name c urls) →
  ∃ i, (c ≤ i < c + Z.of_nat (length urls))%Z ∧ k = suffixed_key name i.
Proof.
  revert c. induction urls as [|u urls IH]; intros c; simpl.
  - by intros ?%elem_of_nil.
  - intros [->|H]%elem_of_cons.
    + exists c. split; [lia|done].
    + destruct (IH _ H) as (i & Hi & ->). exists i. split; [lia|done].
Qed.

Lemma suffixed_lookup name c urls (i : nat) u :
  urls !! i = Some u →
  suffixed name c urls !! i = Some (suffixed_key name (c + Z.of_nat i), u).
Proof.
  revert c i. induction urls as [|u' urls IH]; intros c i Hi; [done|].
  destruct i as [|i]; simpl in Hi.
  - injection Hi as ->. simpl. by rewrite Z.add_0_r.
  - cbn [suffixed]. change ((?x :: ?l) !! S i) with (l !! i).
    rewrite (IH _ _ Hi). do 3 f_equal. lia.
Qed.

Lemma suffixed_nodup name c urls : NoDup (dict_keys (suffixed name c urls)).
Proof.
  revert c. induction urls as [|u urls IH]; intros c; simpl.
  - constructor.
  - apply NoDup_cons. split; [|apply IH].
    intros (i & Hi & Heq)%suffixed_keys. apply suffixed_key_inj in Heq. lia.
Qed.

Lemma numbered_nodup name urls : NoDup (dict_keys (numbered name urls)).
Proof.
  destruct urls as [|u urls]; simpl; [constructor|].
  apply NoDup_cons. split; [|apply suffixed_nodup].
  intros (i & _ & Heq)%suffixed_keys. by destruct (suffixed_key_ne_name name i).
Qed.

(** The links that follow the first one of a station. *)
Lemma for_links_following patterns name links : ∀ catalog c,
  Forall (kept patterns) links →
  is_Some (dict_get name catalog) →
  (∀ i, (c < i ≤ c + Z.of_nat (length links))%Z →
        dict_get (suffixed_key name i) catalog = None) →
  for_links (Some patterns) links
    {| radio_stations := catalog; station := Some name; count := Some c |}
  = Ok {| radio_stations := catalog ++ suffixed name (c + 1) (map href links);
          station := Some name;
          count := Some (c + Z.of_nat (length links))%Z |}.
Proof.
  induction links as [|l links IH]; intros catalog c Hk Hname Hfresh.
  - simpl. by rewrite app_nil_r, Z.add_0_r.
  - apply Forall_cons in Hk as [[Hs He] Hk].
    cbn [for_links]. unfold loop_body at 1. unfold is_stream in Hs.
    rewrite Hs. cbn [negb any_search bind].
    fold (excluded patterns (href l)). rewrite He. cbn [station read_local bind radio_stations].
    apply dict_mem_true in Hname as Hmem. rewrite Hmem. cbn [count read_local bind].
    fold (suffixed_key name (c + 1)).
    rewrite dict_set_fresh by (apply Hfresh; simpl; lia).
    rewrite IH; [| done | |].
    + cbn [map suffixed length]. rewrite <- app_assoc. simpl.
      do 3 f_equal. lia.
    + rewrite dict_get_app. destruct Hname as [v ->]. by eexists.
    + intros i Hi. rewrite dict_get_app, Hfresh by (simpl; lia). simpl.
      destruct (String.eqb _ _) eqn:E; [|done].
      apply String.eqb_eq, suffixed_key_inj in E. lia.
Qed.

(** A header and the links filed under it, over fresh keys. *)
Lemma for_links_header_block
    (patterns : list Pattern) (st : locals) (h : Anchor) (links : list Anchor) :
  is_stream h = false →
  Forall (kept patterns) links →
  dict_get (text h) (radio_stations st) = None →
  (∀ i, (2 ≤ i ≤ Z.of_nat (length links))%Z →
        dict_get (suffixed_key (text h) i) (radio_stations st) = None) →
  for_links (Some patterns) (h :: links) st
  = Ok {| radio_stations :=
            radio_stations st ++ numbered (text h) (map href links);
          station := Some (text h);
          count := Some (Z.max 1 (Z.of_nat (length links))) |}.
Proof.
  intros Hh Hk Hname Hfresh.
  cbn [for_links]. unfold loop_body at 1. unfold is_stream in Hh.
  rewrite Hh. cbn [negb bind radio_stations].
  destruct links as [|l links].
  { simpl. by rewrite app_nil_r. }
  apply Forall_cons in Hk as [[Hs He] Hk].
  cbn [for_links]. unfold loop_body at 1. unfold is_stream in Hs.
  rewrite Hs. cbn [negb any_search bind].
  fold (excluded patterns (href l)). rewrite He.
  cbn [station read_local bind radio_stations].
  apply dict_mem_false in Hname as Hmem. rewrite Hmem. cbn [count bind].
  rewrite dict_set_fresh by done.
  rewrite for_links_following; [| done | |].
  - cbn [map numbered length]. rewrite <- app_assoc. simpl.
    do 3 f_equal. lia.
  - rewrite dict_get_app, Hname. simpl. rewrite String.eqb_refl. by eexists.
  - intros i Hi. rewrite dict_get_app, Hfresh by (simpl in *; lia). simpl.
    destruct (String.eqb _ _) eqn:E; [|done].
    apply String.eqb_eq in E. symmetry in E.
    by destruct (suffixed_key_ne_name (text h) i).
Qed.

(** The key of the i-th link of a station, counting from 0. *)
Lemma numbered_lookup name urls (i : nat) u :
  urls !! i = Some u →
  numbered name urls !! i
  = Some (if decide (i = 0)%nat then name
          else suffixed_key name (Z.of_nat i + 1), u).
Proof.
  destruct urls as [|u0 urls]; [done|].
  destruct i as [|i]; [by intros [= ->]|]. intros Hi.
  rewrite decide_False by done. cbn [numbered].
  change (urls !! i = Some u) in Hi.
  change (suffixed name 2 urls !! i
          = Some (suffixed_key name (Z.of_nat (S i) + 1), u)).
  rewrite (suffixed_lookup _ _ _ _ _ Hi). do 3 f_equal. lia.
Qed.

(** X19. A station header whose name and suffixed names are not yet
    keys of the catalog, followed by [N] stream links that no pattern
    excludes, adds exactly the entries [name], [name 2], ..., [name N]: the
    first link keeps the bare name, the i-th link is stored under [name i],
    the keys are pairwise distinct and each maps to the href of its own link,
    in anchor order.  On its own such a block is extracted to exactly these
    entries. *)
Theorem header_with_links_is_numbered
    (patterns : list Pattern) (st : locals) (h : Anchor) (links : list Anchor) :
  is_stream h = false →
  Forall (kept patterns) links →
  dict_get (text h) (radio_stations st) = None →
  (∀ i, (2 ≤ i ≤ Z.of_nat (length links))%Z →
        dict_get (suffixed_key (text h) i) (radio_stations st) = None) →
  let added := numbered (text h) (map href links) in
  for_links (Some patterns) (h :: links) st
  = Ok {| radio_stations := radio_stations st ++ added;
          station := Some (text h);
          count := Some (Z.max 1 (Z.of_nat (length links))) |}
  ∧ NoDup (dict_keys added)
  ∧ (∀ (i : nat) link, links !! i = Some link →
       dict_get (if decide (i = 0)%nat then text h
                 else suffixed_key (text h) (Z.of_nat i + 1))
                (radio_stations st ++ added)
       = Some (href link))
  ∧ download_radio_stations_urls (h :: links) (Some patterns) = Ok added.
Proof.
  intros Hh Hk Hname Hfresh added.
  assert (Hnd : NoDup (dict_keys added)) by apply numbered_nodup.
  split; [by apply for_links_header_block|]. split; [done|]. split.
  - intros i link Hi. rewrite dict_get_app.
    assert (Hnone : dict_get (if decide (i = 0)%nat then text h
                    else suffixed_key (text h) (Z.of_nat i + 1))
                   (radio_stations st) = None).
    { case_decide; [done|]. apply Hfresh.
      apply lookup_lt_Some in Hi. lia. }
    rewrite Hnone. eapply dict_get_nodup; [done|].
    apply numbered_lookup. by rewrite list_lookup_fmap, Hi.
  - unfold download_radio_stations_urls.
    by rewrite for_links_header_block.
Qed.

Lemma header_with_links_is_numbered_witness :
  let links := [ {| text := "http://direct.example/inter.mp3";
                    href := "http://direct.example/inter.mp3" |};
                 {| text := "http://direct.example/inter.aac";
                    href := "http://direct.example/inter.aac" |};
                 {| text := "https://direct.example/inter.ogg";
                    href := "https://direct.example/inter.ogg" |} ] in
  let h := {| text := "France Inter"; href := "https://www.example.fr/" |} in
  for_links (Some EXCLUDE_HREF_PATTERNS) (h :: links) initial_locals
  = Ok {| radio_stations :=
            [("France Inter", "http://direct.example/inter.mp3");
             ("France Inter 2", "http://direct.example/inter.aac");
             ("France Inter 3", "https://direct.example/inter.ogg")];
          station := Some "France Inter";
          count := Some 3%Z |}.
Proof.
  intros links h.
  refine (proj1 (header_with_links_is_numbered EXCLUDE_HREF_PATTERNS
                   initial_locals h links _ _ _ _)).
  - reflexivity.
  - repeat constructor.
  - reflexivity.
  - reflexivity.
Defined.

(** One pass of the loop over a station header. *)
Lemma loop_body_header patterns st l :
  is_stream l = false →
  loop_body patterns st l
  = Ok {| radio_stations := radio_stations st;
          station := Some (text l); count := Some 1%Z |}.
Proof. unfold loop_body, is_stream. by intros ->. Qed.

(** One pass of the loop over a kept link of a station that is already in
    the catalog. *)
Lemma loop_body_suffixed patterns st l name c :
  kept patterns l → station st = Some name → count st = Some c →
  dict_mem name (radio_stations st) = true →
  loop_body (Some patterns) st l
  = Ok {| radio_stations :=
            dict_set (suffixed_key name (c + 1)) (href l) (radio_stations st);
          station := Some name; count := Some (c + 1)%Z |}.
Proof.
  intros [Hs He] Hn Hc Hm. unfold loop_body, is_stream in *.
  rewrite Hs. simpl. fold (excluded patterns (href l)).
  by rewrite He, Hn, Hc; simpl; rewrite Hm.
Qed.

(** C2. The claim asks that a repeated station header with two links each
    gives every link an entry of its own.  On the second header the counter
    restarts at 1 and the suffixed assignment does not test its key: the
    first link of the second block is stored under [name 2] in place of the
    second link of the first block, whose url is lost.  Four kept links leave
    three entries, [name], [name 2] and [name 3]. *)
Theorem repeated_header_overwrites
    (patterns : list Pattern) (h a b c d : Anchor) :
  is_stream h = false →
  kept patterns a → kept patterns b → kept patterns c → kept patterns d →
  download_radio_stations_urls [h; a; b; h; c; d] (Some patterns)
  = Ok [(text h, href a); (suffixed_key (text h) 2, href c);
        (suffixed_key (text h) 3, href d)].
Proof.
  intros Hh Ha Hb Hc Hd. unfold download_radio_stations_urls.
  change [h; a; b; h; c; d] with ((h :: [a; b]) ++ [h; c; d]).
  rewrite for_links_app.
  rewrite (for_links_header_block patterns initial_locals h [a; b]);
    [| done | by repeat (constructor; [done|]) | done | done].
  assert (Hne : ∀ i, String.eqb (text h) (suffixed_key (text h) i) = false).
  { intros i. apply String.eqb_neq. intros Heq.
    by destruct (suffixed_key_ne_name (text h) i). }
  assert (H23 : String.eqb (suffixed_key (text h) 2) (suffixed_key (text h) 3)
                = false).
  { apply String.eqb_neq. by intros ?%suffixed_key_inj. }
  cbn [bind for_links]. rewrite (loop_body_header _ _ _ Hh). cbn [bind].
  erewrite (loop_body_suffixed _ _ c (text h) 1%Z Hc); [|done|done|].
  2:{ unfold dict_mem. simpl. by rewrite String.eqb_refl. }
  cbn [bind]. change (1 + 1)%Z with 2%Z.
  erewrite (loop_body_suffixed _ _ d (text h) 2%Z Hd); [|done|done|].
  2:{ unfold dict_mem. simpl. rewrite Hne. simpl. by rewrite String.eqb_refl. }
  change (2 + 1)%Z with 3%Z. simpl.
  rewrite (Hne 2%Z), String.eqb_refl. simpl. by rewrite (Hne 3%Z), H23.
Qed.

Lemma repeated_header_overwrites_witness :
  download_radio_stations_urls
    [ {| text := "A"; href := "http://a.example/" |};
      {| text := "http://a.example/1"; href := "http://a.example/1" |};
      {| text := "http://a.example/2"; href := "http://a.example/2" |};
      {| text := "A"; href := "http://a.example/" |};
      {| text := "http://a.example/3"; href := "http://a.example/3" |};
      {| text := "http://a.example/4"; href := "http://a.example/4" |} ]
    (Some EXCLUDE_HREF_PATTERNS)
  = Ok [("A", "http://a.example/1"); ("A 2", "http://a.example/3");
        ("A 3", "http://a.example/4")].
Proof.
  apply (repeated_header_overwrites EXCLUDE_HREF_PATTERNS
           {| text := "A"; href := "http://a.example/" |}
           {| text := "http://a.example/1"; href := "http://a.example/1" |}
           {| text := "http://a.example/2"; href := "http://a.example/2" |}
           {| text := "http://a.example/3"; href := "http://a.example/3" |}
           {| text := "http://a.example/4"; href := "http://a.example/4" |});
    first [reflexivity | by split].
Defined.

(** ** Entries that later links leave alone *)

Lemma safe_from_ne k name c : safe_from k name → suffixed_key name c ≠ k.
Proof.
  intros [->|H].
  - apply suffixed_key_ne_name.
  - intros Heq. by apply (H c).
Qed.

Lemma loop_body_keeps patterns st link st' k u :
  loop_body patterns st link = Ok st' →
  dict_get k (radio_stations st) = Some u →
  (∀ name, name ∈ headers_of st [link] → safe_from k name) →
  dict_get k (radio_stations st') = Some u
  ∧ (∀ rest name, name ∈ headers_of st' rest →
                  name ∈ headers_of st (link :: rest)).
Proof.
  unfold loop_body, headers_of. cbn [List.filter]. unfold is_stream.
  destruct (negb (URL_PATTERN_match (text link))) eqn:Hs.
  { intros [= <-] Hk _. split; [done|]. simpl. intros rest name Hin.
    apply elem_of_app. right. done. }
  intros Hrun Hk Hsafe.
  destruct (any_search patterns (href link)) as [[|]|]; simpl in Hrun; [| |done].
  { injection Hrun as <-. split; [done|]. by rewrite app_nil_r in *. }
  destruct (station st) as [name|] eqn:Hst; simpl in Hrun; [|done].
  assert (Hname : safe_from k name).
  { apply Hsafe. apply elem_of_app. left. by apply list_elem_of_singleton. }
  assert (Hkeep : ∀ rest name',
            name' ∈ option_list (Some name)
                    ++ map text (List.filter
                         (fun l => negb (URL_PATTERN_match (text l))) rest) →
            name' ∈ option_list (Some name)
                    ++ map text (List.filter
                         (fun l => negb (URL_PATTERN_match (text l))) rest)) by done.
  destruct (dict_mem name (radio_stations st)) eqn:Hmem.
  - destruct (count st) as [c|]; simpl in Hrun; [|done].
    injection Hrun as <-. simpl. split; [|done].
    rewrite dict_get_set_ne; [done|]. by apply safe_from_ne.
  - injection Hrun as <-. simpl. split; [|done].
    rewrite dict_get_set_ne; [done|]. intros ->.
    apply dict_mem_false in Hmem. congruence.
Qed.

(** X20. Once a key is bound in the catalog, the remaining links leave its
    entry as it is, provided that for every station name still to be used the
    key is that name itself or none of its suffixed forms [name c]; the bare
    name of a station is in particular never replaced by links filed under
    that same name. *)
Theorem bound_entry_is_kept
    (patterns : option (list Pattern)) (links : list Anchor)
    (st st' : locals) (k u : string) :
  for_links patterns links st = Ok st' →
  dict_get k (radio_stations st) = Some u →
  (∀ name, name ∈ headers_of st links → safe_from k name) →
  dict_get k (radio_stations st') = Some u.
Proof.
  revert st. induction links as [|l links IH]; intros st Hrun Hk Hsafe.
  - simpl in Hrun. by injection Hrun as <-.
  - simpl in Hrun.
    destruct (loop_body patterns st l) as [st1|] eqn:E; simpl in Hrun; [|done].
    destruct (loop_body_keeps _ _ _ _ k u E Hk) as [Hk1 Hsub].
    { intros name Hin. apply Hsafe. unfold headers_of in *.
      apply elem_of_app in Hin as [?|Hin]; apply elem_of_app; [by left|right].
      simpl in *. destruct (negb (is_stream l)); simpl in *;
        [|by apply elem_of_nil in Hin].
      apply list_elem_of_singleton in Hin as ->. apply elem_of_cons. by left. }
    eapply IH; [done..|]. intros name Hin. by apply Hsafe, Hsub.
Qed.

Lemma bound_entry_is_kept_witness :
  dict_get "RTL"
    [("RTL", "http://rtl.example/1"); ("RTL 2", "http://rtl.example/2");
     ("Nova", "http://nova.example/1")]
  = Some "http://rtl.example/1".
Proof.
  refine (bound_entry_is_kept (Some EXCLUDE_HREF_PATTERNS)
    [ {| text := "http://rtl.example/2"; href := "http://rtl.example/2" |};
      {| text := "Nova"; href := "http://nova.example/" |};
      {| text := "http://nova.example/1"; href := "http://nova.example/1" |} ]
    {| radio_stations := [("RTL", "http://rtl.example/1")];
       station := Some "RTL"; count := Some 1%Z |}
    {| radio_stations :=
         [("RTL", "http://rtl.example/1"); ("RTL 2", "http://rtl.example/2");
          ("Nova", "http://nova.example/1")];
       station := Some "Nova"; count := Some 1%Z |}
    "RTL" "http://rtl.example/1" eq_refl eq_refl _).
  intros name Hin. vm_compute in Hin.
  apply elem_of_cons in Hin as [->|Hin]; [by left|].
  apply list_elem_of_singleton in Hin as ->. right.
  intros c Heq. unfold suffixed_key in Heq. discriminate Heq.
Defined.

(** C4. The claim asks that an entry, once emitted, is never replaced.  The
    suffixed assignment does not test its key, unlike the assignment of the
    bare name: a station literally named [RTL 2] loses its url to the second
    link of station [RTL], and when header [A] is repeated the entry [A 2] of
    the first block is replaced by the first link of the second block. *)
Theorem suffixed_write_replaces_entries :
  download_radio_stations_urls
    [ {| text := "RTL 2"; href := "http://rtl2.example/" |};
      {| text := "http://rtl2.example/1"; href := "http://rtl2.example/1" |};
      {| text := "RTL"; href := "http://rtl.example/" |};
      {| text := "http://rtl.example/1"; href := "http://rtl.example/1" |};
      {| text := "http://rtl.example/2"; href := "http://rtl.example/2" |} ]
    (Some EXCLUDE_HREF_PATTERNS)
  = Ok [("RTL 2", "http://rtl.example/2"); ("RTL", "http://rtl.example/1")]
  ∧ ¬ bare_names_never_replaced (Some EXCLUDE_HREF_PATTERNS)
      [ {| text := "RTL 2"; href := "http://rtl2.example/" |};
        {| text := "http://rtl2.example/1"; href := "http://rtl2.example/1" |};
        {| text := "RTL"; href := "http://rtl.example/" |};
        {| text := "http://rtl.example/1"; href := "http://rtl.example/1" |};
        {| text := "http://rtl.example/2"; href := "http://rtl.example/2" |} ]
  ∧ download_radio_stations_urls
      [ {| text := "A"; href := "http://a.example/" |};
        {| text := "http://a.example/1"; href := "http://a.example/1" |};
        {| text := "http://a.example/2"; href := "http://a.example/2" |};
        {| text := "A"; href := "http://a.example/" |};
        {| text := "http://a.example/3"; href := "http://a.example/3" |} ]
      (Some EXCLUDE_HREF_PATTERNS)
    = Ok [("A", "http://a.example/1"); ("A 2", "http://a.example/3")]
  ∧ ¬ entries_never_replaced (Some EXCLUDE_HREF_PATTERNS)
      [ {| text := "A"; href := "http://a.example/" |};
        {| text := "http://a.example/1"; href := "http://a.example/1" |};
        {| text := "http://a.example/2"; href := "http://a.example/2" |};
        {| text := "A"; href := "http://a.example/" |};
        {| text := "http://a.example/3"; href := "http://a.example/3" |} ].
Proof.
  split; [reflexivity|]. split; [|split; [reflexivity|]].
  - intros H.
    specialize (H
      [ {| text := "RTL 2"; href := "http://rtl2.example/" |};
        {| text := "http://rtl2.example/1"; href := "http://rtl2.example/1" |} ]
      [ {| text := "RTL"; href := "http://rtl.example/" |};
        {| text := "http://rtl.example/1"; href := "http://rtl.example/1" |};
        {| text := "http://rtl.example/2"; href := "http://rtl.example/2" |} ]
      _ _ "RTL 2" "http://rtl2.example/1" eq_refl eq_refl eq_refl).
    assert (Hin : "RTL 2" ∈ headers_of initial_locals
      [ {| text := "RTL 2"; href := "http://rtl2.example/" |};
        {| text := "http://rtl2.example/1"; href := "http://rtl2.example/1" |};
        {| text := "RTL"; href := "http://rtl.example/" |};
        {| text := "http://rtl.example/1"; href := "http://rtl.example/1" |};
        {| text := "http://rtl.example/2"; href := "http://rtl.example/2" |} ]).
    { vm_compute. apply elem_of_cons. by left. }
    specialize (H Hin eq_refl). vm_compute in H. discriminate H.
  - intros H.
    specialize (H
      [ {| text := "A"; href := "http://a.example/" |};
        {| text := "http://a.example/1"; href := "http://a.example/1" |};
        {| text := "http://a.example/2"; href := "http://a.example/2" |} ]
      [ {| text := "A"; href := "http://a.example/" |};
        {| text := "http://a.example/3"; href := "http://a.example/3" |} ]
      _ _ "A 2" "http://a.example/2" eq_refl eq_refl eq_refl eq_refl).
    vm_compute in H. discriminate H.
Qed.

(** ** Lemmas on [strip] and [split] *)

Lemma lstrip_starts s : Str.lstrip s = "" ∨ Str.starts_word (Str.lstrip s) = true.
Proof.
  induction s as [|c s IH]; simpl; [by left|].
  destruct (Str.isspace c) eqn:E; [done|]. right. simpl. by rewrite E.
Qed.

Lemma rstrip_starts s : Str.starts_word s = true → Str.starts_word (Str.rstrip s) = true.
Proof.
  destruct s as [|c s]; simpl; [done|].
  destruct (Str.rstrip s); simpl; [|done].
  destruct (Str.isspace c) eqn:E; simpl; [done|]. by rewrite E.
Qed.

Lemma strip_starts s : Str.strip s = "" ∨ Str.starts_word (Str.strip s) = true.
Proof.
  unfold Str.strip. destruct (lstrip_starts s) as [->|H]; [by left|].
  right. by apply rstrip_starts.
Qed.

Lemma contains_space_whitespace s :
  Str.contains " " s = true → has_whitespace s = true.
Proof.
  induction s as [|c s IH]; simpl; [done|].
  intros [Hc|Hs]%orb_true_iff; apply orb_true_iff.
  - left. by apply Ascii.eqb_eq in Hc as ->.
  - right. by apply IH.
Qed.

Lemma split_starts s : Str.starts_word s = true → Str.split s ≠ [].
Proof.
  destruct s as [|c s]; simpl; [done|]. intros Hc.
  apply negb_true_iff in Hc. rewrite Hc.
  destruct (Str.starts_word s); [by destruct (Str.split s)|done].
Qed.

(** The first word of [split] is the first token, and the other words are
    those of the remainder. *)
Lemma split_first_token s :
  Str.starts_word s = true →
  Str.split s
  = InputParser.first_token s :: Str.split (InputParser.after_first_token s).
Proof.
  induction s as [|c s IH]; [done|]. intros Hc.
  simpl in Hc. apply negb_true_iff in Hc. simpl. rewrite Hc.
  destruct (Str.starts_word s) eqn:Hs.
  - by rewrite IH.
  - destruct s as [|c' s]; [done|].
    simpl in Hs. apply negb_false_iff in Hs. simpl. rewrite Hs. simpl.
    by rewrite Hs.
Qed.

Lemma split_all_space pre s :
  all_space pre = true → Str.split (pre +:+ s) = Str.split s.
Proof.
  induction pre as [|c pre IH]; [done|]. rewrite app_cons. simpl.
  intros [Hc Hpre]%andb_true_iff. rewrite Hc. by apply IH.
Qed.

Lemma lstrip_all_space pre s :
  all_space pre = true → Str.lstrip (pre +:+ s) = Str.lstrip s.
Proof.
  induction pre as [|c pre IH]; [done|]. rewrite app_cons. simpl.
  intros [Hc Hpre]%andb_true_iff. rewrite Hc. by apply IH.
Qed.

Lemma first_token_word w sp rest :
  has_whitespace w = false → Str.isspace sp = true →
  InputParser.first_token (w +:+ String sp rest) = w.
Proof.
  intros Hw Hsp. induction w as [|c w IH]; rewrite ?app_cons, ?app_empty; simpl.
  - by rewrite Hsp.
  - simpl in Hw. apply orb_false_iff in Hw as [Hc Hw]. rewrite Hc. by rewrite IH.
Qed.

Lemma word_starts w s : word w → Str.starts_word (w +:+ s) = true.
Proof.
  intros [Hne Hw]. destruct w as [|c w]; [done|].
  rewrite app_cons. simpl in *. apply orb_false_iff in Hw as [-> _]. done.
Qed.

Lemma split_word w : word w → Str.split w = [w].
Proof.
  intros [Hne Hw]. induction w as [|c w IH]; [done|].
  simpl in Hw. apply orb_false_iff in Hw as [Hc Hw]. simpl. rewrite Hc.
  destruct w as [|c' w]; [done|].
  rewrite IH by done. simpl in Hw. apply orb_false_iff in Hw as [Hc' _].
  simpl. by rewrite Hc'.
Qed.

(** ** [parse_user_input] *)

(** X21. [parse_user_input] never raises and trims the line.  When
    the trimmed line holds no space character (U+0020), it is the command
    and the argument is nil; when it holds one, the result is that of the
    rule of section 4.4: the token before the first run of whitespace is the
    command and the rest, rejoined with single spaces, is the argument.  The
    three sample lines give the stated pairs. *)
Theorem parse_user_input_rule (user_input : string) :
  (∃ r, parse_user_input user_input = Ok r)
  ∧ (Str.contains " " (Str.strip user_input) = false →
     parse_user_input user_input = Ok (Str.strip user_input, None))
  ∧ (Str.contains " " (Str.strip user_input) = true →
     parse_user_input user_input = Ok (InputParser.parse user_input))
  ∧ parse_user_input "  play   France Inter  " = Ok ("play", Some "France Inter")
  ∧ parse_user_input "search" = Ok ("search", None)
  ∧ parse_user_input "" = Ok ("", None).
Proof.
  assert (Hsplit : Str.contains " " (Str.strip user_input) = true →
                   parse_user_input user_input = Ok (InputParser.parse user_input)).
  { intros Hc. unfold parse_user_input, InputParser.parse. rewrite Hc.
    rewrite (contains_space_whitespace _ Hc).
    destruct (strip_starts user_input) as [He|Hs].
    { rewrite He in Hc. discriminate Hc. }
    by rewrite (split_first_token _ Hs). }
  assert (Hwhole : Str.contains " " (Str.strip user_input) = false →
                   parse_user_input user_input = Ok (Str.strip user_input, None)).
  { intros Hc. unfold parse_user_input. by rewrite Hc. }
  split; [|by repeat split].
  destruct (Str.contains " " (Str.strip user_input)) eqn:Hc; eauto.
Qed.

Lemma parse_user_input_rule_witness :
  parse_user_input "listen" = Ok ("listen", None)
  ∧ parse_user_input " info  Radio   Nova "
    = Ok (InputParser.parse " info  Radio   Nova ").
Proof.
  split.
  - apply (proj1 (proj2 (parse_user_input_rule "listen"))). reflexivity.
  - apply (proj1 (proj2 (proj2 (parse_user_input_rule " info  Radio   Nova ")))).
    reflexivity.
Defined.

(** C5. The claim asks that a trimmed line with internal whitespace is split
    at its first run of whitespace.  The test that decides whether to split
    looks for the space character only: on [play<TAB>jazz] the whole line
    becomes the command and the argument is nil, where the rule gives
    [play] and [jazz].  As soon as a space occurs anywhere in the line the
    same tab does separate the command: [play<TAB>jazz fm] gives [play] and
    [jazz fm]. *)
Theorem tab_separated_line_is_not_split :
  let line := "play" +:+ String "009" "jazz" in
  has_whitespace (Str.strip line) = true
  ∧ parse_user_input line = Ok (line, None)
  ∧ InputParser.parse line = ("play", Some "jazz")
  ∧ parse_user_input line ≠ Ok (InputParser.parse line)
  ∧ parse_user_input ("play" +:+ String "009" "jazz fm")
    = Ok ("play", Some "jazz fm").
Proof. by repeat split. Qed.

(** ** Completion in station mode *)

Lemma lstrip_word w s : word w → Str.lstrip (w +:+ s) = w +:+ s.
Proof.
  intros [Hne Hw]. destruct w as [|c w]; [done|].
  rewrite app_cons. simpl in *. by apply orb_false_iff in Hw as [-> _].
Qed.

Lemma slice_from_app a b (n : nat) :
  Str.slice_from (String.length a + n) (a +:+ b) = Str.slice_from n b.
Proof.
  induction a as [|c a IH]; [done|]. rewrite app_cons. simpl. apply IH.
Qed.

Lemma slice_from_0 s : Str.slice_from 0 s = s.
Proof. by destruct s. Qed.

(** The completions yielded for matches that are all station names, when the
    start position is not positive. *)
Lemma yield_stations_ok (self : RadioCompleter) (start : Z) (matches : list string) :
  (start ≤ 0)%Z →
  Forall (fun m => is_Some (dict_get m (stations self))) matches →
  ∃ completions,
    yield_stations self start matches = Ok completions
    ∧ map completion_text completions = matches
    ∧ Forall (fun c => start_position c = start
                       ∧ display_meta c
                         = dict_get (completion_text c) (stations self)
                       ∧ is_Some (display_meta c)) completions.
Proof.
  intros Hstart.
  induction 1 as [|m matches [url Hm] _ (completions & Hy & Ht & Hall)]; simpl.
  - by exists [].
  - unfold dict_index, Completion_init. rewrite Hm, Hy. simpl.
    destruct (0 <? start)%Z eqn:E; [apply Z.ltb_lt in E; lia|]. simpl.
    eexists. split; [done|].
    split; [by rewrite <- Ht|]. constructor; [|done]. simpl. by rewrite Hm.
Qed.

(** X22. When the line before the cursor holds a space and consists of some
    whitespace, a recognized command, one whitespace character and a
    remainder, and the cursor is not before that remainder, the matcher is
    queried with the remainder over the station names, and every completion
    replaces from the first character after the character that follows the
    command token: cursor position plus start position is the length of the
    leading whitespace plus the length of the command plus one.  Each
    completion carries the url of its station as display label.  For the line
    [play fra] with the cursor at its end and the stations [France Inter] and
    [France Info], both are suggested, each with its url, anchored at
    offset 5. *)
Theorem station_mode_anchor :
  (∀ (fuzzyfinder : option string → list string → result (list string))
     (self : RadioCompleter) (document : Document)
     (pre cmd rest : string) (sp : ascii) (matches : list string),
     current_line_before_cursor document = pre +:+ cmd +:+ String sp rest →
     all_space pre = true → word cmd → Str.isspace sp = true →
     Str.contains " " (current_line_before_cursor document) = true →
     (Str.len pre + Str.len cmd + 1 ≤ cursor_position document)%Z →
     dict_mem cmd (commands self) = true →
     fuzzyfinder (Some rest) (dict_keys (stations self)) = Ok matches →
     Forall (fun m => is_Some (dict_get m (stations self))) matches →
     ∃ completions,
       get_completions fuzzyfinder self document = Ok completions
       ∧ map completion_text completions = matches
       ∧ Forall (fun c =>
           (cursor_position document + start_position c
            = Str.len pre + Str.len cmd + 1)%Z
           ∧ display_meta c = dict_get (completion_text c) (stations self)
           ∧ is_Some (display_meta c)) completions)
  ∧ (∀ PLAYER subprocess_run url_inter url_info,
       get_completions FuzzyMatcher.call
         {| commands := COMMANDS FuzzyMatcher.call PLAYER subprocess_run;
            stations := [("France Inter", url_inter); ("France Info", url_info)] |}
         {| current_line_before_cursor := "play fra";
            cursor_position := 8;
            word_before_cursor := "fra" |}
       = Ok [ {| completion_text := "France Inter";
                 start_position := 5 - 8;
                 display_meta := Some url_inter |};
              {| completion_text := "France Info";
                 start_position := 5 - 8;
                 display_meta := Some url_info |} ]).
Proof.
  split; [|done].
  intros fuzzyfinder self document pre cmd rest sp matches
    Htext Hpre Hcmd Hsp Hcontains Hcursor Hmem Hff Hkeys.
  unfold get_completions. rewrite Hcontains, Htext.
  rewrite split_all_space, lstrip_all_space by done.
  rewrite (split_first_token _ (word_starts _ _ Hcmd)).
  rewrite first_token_word by (done || apply Hcmd).
  rewrite lstrip_word by done.
  unfold list_index. cbn [lookup list_lookup bind]. rewrite Hmem.
  assert (Hlen : (Str.len (pre +:+ cmd +:+ String sp rest)
                  - Str.len (cmd +:+ String sp rest) + Str.len cmd + 1
                  = Str.len pre + Str.len cmd + 1)%Z).
  { unfold Str.len. rewrite !length_app. lia. }
  rewrite Hlen.
  assert (Hoff : Z.to_nat (Str.len pre + Str.len cmd + 1)
                 = (String.length pre + (String.length cmd + 1))%nat).
  { unfold Str.len. lia. }
  rewrite Hoff, slice_from_app, slice_from_app.
  change (Str.slice_from 1 (String sp rest)) with (Str.slice_from 0 rest).
  rewrite slice_from_0, Hff. cbn [bind].
  destruct (yield_stations_ok self
    (- (cursor_position document - (Str.len pre + Str.len cmd + 1)))%Z
    matches) as (completions & Hy & Ht & Hall); [lia|done|].
  exists completions. split; [done|]. split; [done|].
  eapply Forall_impl; [exact Hall|]. intros c (Hstart & Hmeta & Hsome).
  split; [|done]. rewrite Hstart. lia.
Qed.

Lemma station_mode_anchor_witness :
  ∃ completions,
    get_completions FuzzyMatcher.call
      {| commands := COMMANDS FuzzyMatcher.call "mpv" (fun _ => Ok tt);
         stations := [("France Inter", "http://direct.example/inter.mp3");
                      ("Nova", "http://nova.example/live.mp3")] |}
      {| current_line_before_cursor := "  listen nov";
         cursor_position := 12;
         word_before_cursor := "nov" |}
    = Ok completions
    ∧ map completion_text completions = ["Nova"]
    ∧ Forall (fun c =>
        (12 + start_position c = 2 + 6 + 1)%Z
        ∧ display_meta c
          = dict_get (completion_text c)
              [("France Inter", "http://direct.example/inter.mp3");
               ("Nova", "http://nova.example/live.mp3")]
        ∧ is_Some (display_meta c)) completions.
Proof.
  refine (proj1 station_mode_anchor FuzzyMatcher.call
    {| commands := COMMANDS FuzzyMatcher.call "mpv" (fun _ => Ok tt);
       stations := [("France Inter", "http://direct.example/inter.mp3");
                    ("Nova", "http://nova.example/live.mp3")] |}
    {| current_line_before_cursor := "  listen nov";
       cursor_position := 12;
       word_before_cursor := "nov" |}
    "  " "listen" "nov" " "%char ["Nova"]
    eq_refl eq_refl _ eq_refl eq_refl _ eq_refl eq_refl _).
  - split; [discriminate|reflexivity].
  - discriminate.
  - repeat constructor; by eexists.
Defined.

(** C6. The claim asks for station suggestions once whitespace follows a
    recognized command.  The mode test of [get_completions] looks for the
    space character only: on the line [play<TAB>fra] it stays in command
    mode, queries the matcher with the word [fra] over the command names and
    suggests no station, whatever the matcher; with the matcher of the
    specification nothing is suggested at all.  As soon as a space occurs
    anywhere in the line, the same tab is taken as the separator after the
    command: [play<TAB>fra ] suggests both stations anchored at offset 5. *)
Theorem tab_after_command_stays_in_command_mode :
  (∀ fuzzyfinder PLAYER subprocess_run url_inter url_info,
     get_completions fuzzyfinder
       {| commands := COMMANDS fuzzyfinder PLAYER subprocess_run;
          stations := [("France Inter", url_inter); ("France Info", url_info)] |}
       {| current_line_before_cursor := "play" +:+ String "009" "fra";
          cursor_position := 8;
          word_before_cursor := "fra" |}
     = (let* matches :=
          fuzzyfinder (Some "fra") ["play"; "listen"; "show"; "info"; "search"] in
        yield_commands (-3) matches))
  ∧ (∀ PLAYER subprocess_run url_inter url_info,
       get_completions FuzzyMatcher.call
         {| commands := COMMANDS FuzzyMatcher.call PLAYER subprocess_run;
            stations := [("France Inter", url_inter); ("France Info", url_info)] |}
         {| current_line_before_cursor := "play" +:+ String "009" "fra";
            cursor_position := 8;
            word_before_cursor := "fra" |}
       = Ok [])
  ∧ (∀ PLAYER subprocess_run url_inter url_info,
       get_completions FuzzyMatcher.call
         {| commands := COMMANDS FuzzyMatcher.call PLAYER subprocess_run;
            stations := [("France Inter", url_inter); ("France Info", url_info)] |}
         {| current_line_before_cursor := "play" +:+ String "009" "fra ";
            cursor_position := 9;
            word_before_cursor := "" |}
       = Ok [ {| completion_text := "France Inter";
                 start_position := 5 - 9;
                 display_meta := Some url_inter |};
              {| completion_text := "France Info";
                 start_position := 5 - 9;
                 display_meta := Some url_info |} ]).
Proof. by repeat split. Qed.

(** ** The play handler *)

Lemma app_assoc_string (a b c : string) : (a +:+ b) +:+ c = a +:+ b +:+ c.
Proof.
  induction a as [|x a IH]; [done|]. rewrite !app_cons. by rewrite IH.
Qed.

Lemma starts_word_app_space s t :
  Str.starts_word (s +:+ " " +:+ t) = Str.starts_word s.
Proof. by destruct s. Qed.

(** Splitting a command line that ends in a space and one more word. *)
Lemma split_app_word s w : word w → Str.split (s +:+ " " +:+ w) = Str.split s ++ [w].
Proof.
  intros Hw. induction s as [|c s IH].
  - rewrite app_empty. change (Str.split (" " +:+ w)) with (Str.split w).
    by rewrite split_word.
  - rewrite app_cons. simpl. destruct (Str.isspace c); [done|].
    rewrite starts_word_app_space, IH.
    destruct (Str.starts_word s) eqn:Hs; [|done].
    apply split_starts in Hs. by destruct (Str.split s).
Qed.

(** C7 (amended). When the station name is not a key of the catalog, the
    handler prints the notice and does nothing else: no player is started.
    When it is a key, the selected player is one of the table
    [MEDIA_PLAYERS_DEFAULT_ARGS] and the url is a non-empty string without
    whitespace, the handler makes exactly one [subprocess.run] call, whose
    argument list is the player, its default arguments and, last, the url,
    and it ends as that call ends. *)
Theorem play_handler
    (PLAYER : string) (subprocess_run : list string → result unit)
    (radio_stations : dict) (station_name : option string) :
  (known radio_stations station_name = false →
   command_play PLAYER subprocess_run radio_stations station_name
   = ([Print ("Unkwnon station: " +:+ fmt station_name)], Ok tt))
  ∧ (∀ name url player_args,
       station_name = Some name →
       dict_get name radio_stations = Some url →
       dict_get PLAYER MEDIA_PLAYERS_DEFAULT_ARGS = Some player_args →
       word url →
       command_play PLAYER subprocess_run radio_stations station_name
       = ([SubprocessRun (Str.split (PLAYER +:+ " " +:+ player_args) ++ [url])],
          subprocess_run (Str.split (PLAYER +:+ " " +:+ player_args) ++ [url]))
       ∧ last (Str.split (PLAYER +:+ " " +:+ player_args) ++ [url]) = Some url).
Proof.
  split.
  - intros Hk. unfold command_play. by rewrite Hk.
  - intros name url player_args -> Hurl Hargs Hw.
    split; [|by rewrite last_snoc].
    unfold command_play, known, dict_mem, index, dict_index.
    rewrite Hurl, Hargs. cbn [negb bind]. unfold fmt_player_cmd.
    replace (PLAYER +:+ " " +:+ player_args +:+ " " +:+ url)
      with ((PLAYER +:+ " " +:+ player_args) +:+ " " +:+ url)
      by by rewrite !app_assoc_string.
    by rewrite split_app_word.
Qed.

Lemma play_handler_witness :
  command_play "mpv" (fun _ => Ok tt) [("Nova", "http://nova.example/live.mp3")] (Some "FIP")
  = ([Print "Unkwnon station: FIP"], Ok tt)
  ∧ command_play "mpv" (fun _ => Ok tt) [("Nova", "http://nova.example/live.mp3")] (Some "Nova")
    = ([SubprocessRun ["mpv"; "--no-video"; "http://nova.example/live.mp3"]],
       Ok tt)
  ∧ command_play "vlc" (fun _ => Ok tt) [("Nova", "http://nova.example/live.mp3")] (Some "Nova")
    = ([SubprocessRun ["vlc"; "http://nova.example/live.mp3"]], Ok tt).
Proof.
  split; [|split].
  - apply (proj1 (play_handler "mpv" (fun _ => Ok tt) [("Nova", "http://nova.example/live.mp3")]
                    (Some "FIP"))).
    reflexivity.
  - refine (proj1 (proj2 (play_handler "mpv" (fun _ => Ok tt)
              [("Nova", "http://nova.example/live.mp3")] (Some "Nova"))
              "Nova" "http://nova.example/live.mp3" "--no-video"
              eq_refl eq_refl eq_refl _)).
    split; [discriminate|reflexivity].
  - refine (proj1 (proj2 (play_handler "vlc" (fun _ => Ok tt)
              [("Nova", "http://nova.example/live.mp3")] (Some "Nova"))
              "Nova" "http://nova.example/live.mp3" ""
              eq_refl eq_refl eq_refl _)).
    split; [discriminate|reflexivity].
Defined.

(** C7 (as stated) fails for a catalog whose url holds a space: the command
    line is split on whitespace, the url is cut in two, and the final
    argument handed to the player is not the url. *)
Lemma url_with_space_counterexample :
  dict_get "Nova" [("Nova", "http://nova.example/live stream.mp3")]
  = Some "http://nova.example/live stream.mp3"
  ∧ command_play DEFAULT_MEDIA_PLAYER (fun _ => Ok tt)
      [("Nova", "http://nova.example/live stream.mp3")] (Some "Nova")
    = ([SubprocessRun ["mpv"; "--no-video"; "http://nova.example/live";
                       "stream.mp3"]], Ok tt)
  ∧ ¬ (∃ cmd_line,
         command_play DEFAULT_MEDIA_PLAYER (fun _ => Ok tt)
           [("Nova", "http://nova.example/live stream.mp3")] (Some "Nova")
         = ([SubprocessRun cmd_line], Ok tt)
         ∧ last cmd_line = Some "http://nova.example/live stream.mp3").
Proof.
  split; [reflexivity|]. split; [reflexivity|].
  intros (cmd_line & Hrun & Hlast). vm_compute in Hrun.
  injection Hrun as <-. vm_compute in Hlast. discriminate Hlast.
Qed.

(** C9. With a known station name and a player other than [mpv] and [vlc],
    the handler raises [KeyError] at the lookup in
    [MEDIA_PLAYERS_DEFAULT_ARGS] before any player is started; the loop of
    [main] has no clause for it, so a [play] or [listen] line ends the loop
    with that exception. *)
Theorem unknown_player_raises
    (fuzzyfinder : option string → list string → result (list string))
    (PLAYER : string) (subprocess_run : list string → result unit)
    (radio_stations : dict) (name url : string) :
  dict_get name radio_stations = Some url →
  PLAYER ≠ "mpv" → PLAYER ≠ "vlc" →
  command_play PLAYER subprocess_run radio_stations (Some name) = ([], Raise (KeyError PLAYER))
  ∧ (∀ user_input command rest,
       parse_user_input user_input = Ok (command, Some name) →
       command = "play" ∨ command = "listen" →
       iteration fuzzyfinder PLAYER subprocess_run radio_stations (Ok user_input)
       = ([], Propagate (KeyError PLAYER))
       ∧ repl fuzzyfinder PLAYER subprocess_run radio_stations (Ok user_input :: rest)
         = ([], 1%nat, Crashed (KeyError PLAYER))).
Proof.
  intros Hurl Hmpv Hvlc.
  assert (Hargs : dict_get PLAYER MEDIA_PLAYERS_DEFAULT_ARGS = None).
  { unfold MEDIA_PLAYERS_DEFAULT_ARGS. cbn [dict_get].
    apply not_eq_sym, String.eqb_neq in Hmpv, Hvlc.
    by rewrite Hmpv, Hvlc. }
  assert (Hplay : command_play PLAYER subprocess_run radio_stations (Some name)
                  = ([], Raise (KeyError PLAYER))).
  { unfold command_play, known, dict_mem, index, dict_index.
    by rewrite Hurl, Hargs. }
  split; [done|]. intros user_input command rest Hparse Hcmd.
  assert (Hit : iteration fuzzyfinder PLAYER subprocess_run radio_stations (Ok user_input)
                = ([], Propagate (KeyError PLAYER))).
  { unfold iteration, try_body. cbn [bind]. rewrite Hparse.
    destruct Hcmd as [-> | ->]; cbn; by rewrite Hplay. }
  split; [done|]. cbn [repl]. by rewrite Hit.
Qed.

Lemma unknown_player_raises_witness :
  command_play "mplayer" (fun _ => Ok tt) [("Nova", "http://nova.example/live.mp3")] (Some "Nova")
  = ([], Raise (KeyError "mplayer")).
Proof.
  refine (proj1 (unknown_player_raises FuzzyMatcher.call "mplayer" (fun _ => Ok tt)
            [("Nova", "http://nova.example/live.mp3")] "Nova"
            "http://nova.example/live.mp3" eq_refl _ _)); discriminate.
Defined.

(** ** The fuzzy matcher of the specification *)

Lemma subsequence_empty candidate : FuzzyMatcher.subsequence "" candidate = true.
Proof. by destruct candidate. Qed.

Lemma filter_all_true {A : Type} (f : A → bool) (l : list A) :
  (∀ x, f x = true) → List.filter f l = l.
Proof.
  intros Hf. induction l as [|x l IH]; simpl; [done|]. by rewrite Hf, IH.
Qed.

Lemma filter_sublist {A : Type} (f : A → bool) (l : list A) :
  sublist (List.filter f l) l.
Proof.
  induction l as [|x l IH]; simpl; [constructor|].
  destruct (f x); by constructor.
Qed.

Lemma filter_filter_same {A : Type} (f : A → bool) (l : list A) :
  List.filter f (List.filter f l) = List.filter f l.
Proof.
  induction l as [|x l IH]; simpl; [done|].
  destruct (f x) eqn:E; simpl; [|done]. by rewrite E, IH.
Qed.

(** C8. For the matcher of section 4.2: the empty query returns the
    candidates unchanged; for every query the result is a sublist of the
    candidates, so a subset in the original relative order, and holds
    exactly the candidates that match; the result is a function of the two
    arguments alone, and filtering it again with the same query changes
    nothing. *)
Theorem fuzzy_matcher_contract (query : string) (candidates : list string) :
  FuzzyMatcher.fuzzyfinder "" candidates = candidates
  ∧ sublist (FuzzyMatcher.fuzzyfinder query candidates) candidates
  ∧ (∀ x, x ∈ FuzzyMatcher.fuzzyfinder query candidates
          ↔ x ∈ candidates ∧ FuzzyMatcher.subsequence query x = true)
  ∧ FuzzyMatcher.call (Some query) candidates
    = Ok (FuzzyMatcher.fuzzyfinder query candidates)
  ∧ FuzzyMatcher.fuzzyfinder query (FuzzyMatcher.fuzzyfinder query candidates)
    = FuzzyMatcher.fuzzyfinder query candidates.
Proof.
  unfold FuzzyMatcher.fuzzyfinder. split; [|split; [|split; [|split]]].
  - apply filter_all_true, subsequence_empty.
  - apply filter_sublist.
  - intros x. rewrite !list_elem_of_In. apply filter_In.
  - done.
  - apply filter_filter_same.
Qed.

(** ** A search line without argument *)

(** C10 (amended). The line [search] parses to the command with a nil
    argument, and the search handler hands that nil to the matcher as the
    query.  What follows is the matcher's doing.  If it raises on the nil
    query, the exception, unless it is one of the two the loop has a clause
    for, leaves the loop of [main] and no further prompt is read.  If it
    returns, the matches go to the pager and the loop returns to the
    prompt. *)
Theorem search_without_argument
    (fuzzyfinder : option string → list string → result (list string))
    (PLAYER : string) (subprocess_run : list string → result unit)
    (radio_stations : dict) (rest : list (result string)) :
  parse_user_input "search" = Ok ("search", None)
  ∧ (∀ e, fuzzyfinder None (dict_keys radio_stations) = Raise e →
          e ≠ KeyboardInterrupt → e ≠ EOFError →
          command_search fuzzyfinder radio_stations None = ([], Raise e)
          ∧ iteration fuzzyfinder PLAYER subprocess_run radio_stations (Ok "search")
            = ([], Propagate e)
          ∧ repl fuzzyfinder PLAYER subprocess_run radio_stations
              (Ok "search" :: rest)
            = ([], 1%nat, Crashed e))
  ∧ (∀ matches, fuzzyfinder None (dict_keys radio_stations) = Ok matches →
       iteration fuzzyfinder PLAYER subprocess_run radio_stations (Ok "search")
       = ([EchoViaPager (Str.join (String "010" "") matches)], Continue)).
Proof.
  assert (Hit : iteration fuzzyfinder PLAYER subprocess_run radio_stations
                  (Ok "search")
                = match command_search fuzzyfinder radio_stations None with
                  | (out, Ok _) => (out, Continue)
                  | (out, Raise KeyboardInterrupt) => (out, Continue)
                  | (out, Raise EOFError) => (out, Break)
                  | (out, Raise e) => (out, Propagate e)
                  end).
  { unfold iteration, try_body. cbn [bind].
    change (parse_user_input "search") with (Ok ("search", @None string)).
    cbv iota beta.
    change (dict_mem "search" (COMMANDS fuzzyfinder PLAYER subprocess_run))
      with true.
    change (dict_index (COMMANDS fuzzyfinder PLAYER subprocess_run) "search")
      with (Ok (command_search fuzzyfinder)).
    done. }
  split; [done|]. split.
  - intros e Hff Hki Heof.
    assert (Hs : command_search fuzzyfinder radio_stations None = ([], Raise e)).
    { unfold command_search. by rewrite Hff. }
    assert (Hp : iteration fuzzyfinder PLAYER subprocess_run radio_stations
                   (Ok "search") = ([], Propagate e)).
    { rewrite Hit, Hs. by destruct e. }
    repeat split; [done..|]. cbn [repl]. by rewrite Hp.
  - intros matches Hff. rewrite Hit. unfold command_search. by rewrite Hff.
Qed.

Lemma search_without_argument_witness :
  repl (fun _ _ => Raise TypeError) DEFAULT_MEDIA_PLAYER (fun _ => Ok tt)
    [("Nova", "http://nova.example/live.mp3")]
    [Ok "search"; Ok "info Nova"; Raise EOFError]
  = ([], 1%nat, Crashed TypeError)
  ∧ iteration FuzzyMatcher.call DEFAULT_MEDIA_PLAYER (fun _ => Ok tt)
      [("Nova", "http://nova.example/live.mp3");
       ("Radio Nonstop Easy", "http://nonstop.example/live.mp3")]
      (Ok "search")
    = ([EchoViaPager "Radio Nonstop Easy"], Continue).
Proof.
  split.
  - refine (proj2 (proj2 (proj1 (proj2 (search_without_argument
              (fun _ _ => Raise TypeError) DEFAULT_MEDIA_PLAYER (fun _ => Ok tt)
              [("Nova", "http://nova.example/live.mp3")]
              [Ok "info Nova"; Raise EOFError])) TypeError eq_refl _ _)));
      discriminate.
  - refine (proj2 (proj2 (search_without_argument
              FuzzyMatcher.call DEFAULT_MEDIA_PLAYER (fun _ => Ok tt)
              [("Nova", "http://nova.example/live.mp3");
               ("Radio Nonstop Easy", "http://nonstop.example/live.mp3")] []))
              ["Radio Nonstop Easy"] eq_refl).
Defined.

(** C10 (as stated) fails with the matcher of the program: the nil query is
    read as the text [None], the call returns, the matching station names
    are paged, and the loop goes on to the next prompt instead of ending with
    an exception. *)
Lemma bare_search_returns_to_prompt :
  repl FuzzyMatcher.call DEFAULT_MEDIA_PLAYER (fun _ => Ok tt)
    [("Nova", "http://nova.example/live.mp3");
     ("Radio Nonstop Easy", "http://nonstop.example/live.mp3")]
    [Ok "search"; Ok "info Nova"; Raise EOFError]
  = ([EchoViaPager "Radio Nonstop Easy";
      Print "Nova: http://nova.example/live.mp3"],
     3%nat, Stopped)
  ∧ ¬ (∃ e,
         (iteration FuzzyMatcher.call DEFAULT_MEDIA_PLAYER (fun _ => Ok tt)
            [("Nova", "http://nova.example/live.mp3");
             ("Radio Nonstop Easy", "http://nonstop.example/live.mp3")]
            (Ok "search")).2
         = Propagate e).
Proof.
  split; [reflexivity|]. intros [e H]. vm_compute in H. discriminate H.
Qed.

(** ** Further properties of the extraction loop *)

Section DictKeys.
Context {V : Type}.
Implicit Types (d : pydict V) (k : string) (v : V).

Lemma dict_get_None_keys k d : dict_get k d = None ↔ k ∉ dict_keys d.
Proof.
  induction d as [|[k' v'] d IH]; simpl.
  - split; [intros _ H; by apply elem_of_nil in H|done].
  - destruct (String.eqb k' k) eqn:E.
    + apply String.eqb_eq in E as ->. split; [done|].
      intros H. destruct H. apply elem_of_cons. by left.
    + apply String.eqb_neq in E. rewrite IH. split.
      * intros Hn [->|H]%elem_of_cons; [done|]. by apply Hn.
      * intros Hn H. apply Hn. apply elem_of_cons. by right.
Qed.

Lemma dict_set_keys k v d :
  dict_keys (dict_set k v d)
  = if dict_mem k d then dict_keys d else dict_keys d ++ [k].
Proof.
  unfold dict_mem. induction d as [|[k' v'] d IH]; simpl; [done|].
  destruct (String.eqb k' k) eqn:E; simpl.
  - apply String.eqb_eq in E as ->. done.
  - rewrite IH. by destruct (dict_get k d).
Qed.

Lemma dict_set_length k v d : length (dict_set k v d) ≤ S (length d).
Proof.
  induction d as [|[k' v'] d IH]; simpl; [lia|].
  destruct (String.eqb k' k); simpl; lia.
Qed.

End DictKeys.

(** What one pass of the loop does to the catalog: nothing, or one
    assignment of the href under a key built from the current station. *)
Lemma loop_body_cases patterns st link st' :
  loop_body patterns st link = Ok st' →
  (is_stream link = false
   ∧ st' = {| radio_stations := radio_stations st;
              station := Some (text link); count := Some 1%Z |})
  ∨ (is_stream link = true ∧ st' = st
     ∧ ∃ ps, patterns = Some ps ∧ excluded ps (href link) = true)
  ∨ (is_stream link = true
     ∧ (∃ ps, patterns = Some ps ∧ excluded ps (href link) = false)
     ∧ ∃ name, station st = Some name ∧ station st' = Some name
       ∧ ((dict_mem name (radio_stations st) = false
           ∧ count st' = count st
           ∧ radio_stations st'
             = dict_set name (href link) (radio_stations st))
          ∨ (dict_mem name (radio_stations st) = true
             ∧ ∃ c, count st = Some c ∧ count st' = Some (c + 1)%Z
               ∧ radio_stations st'
                 = dict_set (suffixed_key name (c + 1)) (href link)
                     (radio_stations st)))).
Proof.
  unfold loop_body, is_stream.
  destruct (URL_PATTERN_match (text link)); simpl.
  2:{ intros [= <-]. by left. }
  destruct patterns as [ps|]; simpl; [|done].
  fold (excluded ps (href link)).
  destruct (excluded ps (href link)) eqn:He.
  { intros [= <-]. right. left. eauto. }
  destruct (station st) as [name|] eqn:Hs; simpl; [|done].
  destruct (dict_mem name (radio_stations st)) eqn:Hm.
  - destruct (count st) as [c|] eqn:Hc; simpl; [|done].
    intros [= <-]. right. right. split; [done|]. split; [eauto|].
    exists name. split; [done|]. split; [done|]. right. split; [done|].
    by exists c.
  - intros [= <-]. right. right. split; [done|]. split; [eauto|].
    exists name. split; [done|]. split; [done|]. by left.
Qed.

Lemma for_links_values patterns links st st' :
  for_links (Some patterns) links st = Ok st' →
  (∀ k v, (k, v) ∈ radio_stations st' →
     (∃ k', (k', v) ∈ radio_stations st)
     ∨ ∃ l, l ∈ links ∧ keptb patterns l = true ∧ href l = v)
  ∧ length (radio_stations st')
    ≤ length (radio_stations st) + length (List.filter (keptb patterns) links).
Proof.
  revert st. induction links as [|l links IH]; intros st; simpl.
  - intros [= <-]. split; [|lia]. intros k v H. left. eauto.
  - destruct (loop_body (Some patterns) st l) as [st1|] eqn:E; simpl; [|done].
    intros Hrun. destruct (IH _ Hrun) as [Hv Hl].
    assert (Hstep : (∀ k v, (k, v) ∈ radio_stations st1 →
                       (∃ k', (k', v) ∈ radio_stations st)
                       ∨ (keptb patterns l = true ∧ href l = v))
                    ∧ length (radio_stations st1)
                      ≤ length (radio_stations st)
                        + (if keptb patterns l then 1 else 0)).
    { unfold keptb.
      destruct (loop_body_cases _ _ _ _ E)
        as [[_ ->]|[(_ & -> & _)|(Hs & (ps & [= <-] & He) & name & _ & _ & Hw)]].
      - simpl. split; [eauto|lia].
      - split; [eauto|lia].
      - rewrite Hs, He. simpl.
        assert (∃ key, radio_stations st1
                       = dict_set key (href l) (radio_stations st)) as [key ->].
        { destruct Hw as [(_ & _ & ->)|(_ & c & _ & _ & ->)]; eauto. }
        split.
        + intros k v [[= -> ->]|?]%dict_set_entries; eauto.
        + pose proof (dict_set_length key (href l) (radio_stations st)). lia. }
    destruct Hstep as [Hv1 Hl1]. split.
    + intros k v Hin. destruct (Hv _ _ Hin) as [[k' Hk']|(l' & Hl' & Hk & Hh)].
      * destruct (Hv1 _ _ Hk') as [?|[Hk Hh]]; [by left|].
        right. exists l. split; [apply elem_of_cons; by left|done].
      * right. exists l'. split; [apply elem_of_cons; by right|done].
    + destruct (keptb patterns l); simpl; lia.
Qed.

(** X2. Every url of the extracted catalog is the href of a stream link of
    the anchor sequence that no pattern excludes, and the catalog has at most
    as many entries as there are such links. *)
Theorem extraction_values_from_links
    (patterns : list Pattern) (links : list Anchor) (catalog : dict) :
  download_radio_stations_urls links (Some patterns) = Ok catalog →
  (∀ name url, (name, url) ∈ catalog →
     ∃ link, link ∈ links ∧ is_stream link = true
             ∧ excluded patterns (href link) = false ∧ href link = url)
  ∧ length catalog ≤ length (List.filter (keptb patterns) links).
Proof.
  unfold download_radio_stations_urls.
  destruct (for_links (Some patterns) links initial_locals) as [st|] eqn:E;
    simpl; [|done].
  intros [= <-]. destruct (for_links_values _ _ _ _ E) as [Hv Hl].
  split; [|by simpl in Hl].
  intros name url Hin.
  destruct (Hv _ _ Hin) as [[k' Hk']|(l & Hl' & Hk & Hh)].
  - by apply elem_of_nil in Hk'.
  - exists l. unfold keptb in Hk. apply andb_true_iff in Hk as [Hs He].
    apply negb_true_iff in He. done.
Qed.

Lemma extraction_values_from_links_witness :
  (∀ name url,
     (name, url) ∈ [("A", "http://a.example/1"); ("A 2", "http://a.example/3")] →
     ∃ link,
       link ∈ [ {| text := "A"; href := "http://a.example/" |};
                {| text := "http://a.example/1"; href := "http://a.example/1" |};
                {| text := "http://a.example/2"; href := "http://a.example/2" |};
                {| text := "A"; href := "http://a.example/" |};
                {| text := "http://a.example/3"; href := "http://a.example/3" |} ]
       ∧ is_stream link = true
       ∧ excluded EXCLUDE_HREF_PATTERNS (href link) = false
       ∧ href link = url)
  ∧ length [("A", "http://a.example/1"); ("A 2", "http://a.example/3")] ≤ 3.
Proof.
  apply (extraction_values_from_links EXCLUDE_HREF_PATTERNS
    [ {| text := "A"; href := "http://a.example/" |};
      {| text := "http://a.example/1"; href := "http://a.example/1" |};
      {| text := "http://a.example/2"; href := "http://a.example/2" |};
      {| text := "A"; href := "http://a.example/" |};
      {| text := "http://a.example/3"; href := "http://a.example/3" |} ]).
  reflexivity.
Defined.

Lemma key_of_header_mono names names' k :
  (∀ n, n ∈ names → n ∈ names') → key_of_header names k → key_of_header names' k.
Proof. intros Hsub (n & Hn & Hk). exists n. split; [by apply Hsub|done]. Qed.

Lemma for_links_keys patterns links st st' :
  for_links patterns links st = Ok st' →
  (∀ c, count st = Some c → (1 ≤ c)%Z) →
  ∀ k, k ∈ dict_keys (radio_stations st') →
       k ∈ dict_keys (radio_stations st) ∨ key_of_header (headers_of st links) k.
Proof.
  revert st. induction links as [|l links IH]; intros st; simpl.
  - intros [= <-] _ k Hk. by left.
  - destruct (loop_body patterns st l) as [st1|] eqn:E; simpl; [|done].
    intros Hrun Hc k Hk.
    destruct (loop_body_cases _ _ _ _ E)
      as [[Hs ->]|[(Hs & -> & _)|(Hs & _ & name & Hn & Hn1 & Hw)]].
    + destruct (IH _ Hrun) with (k := k) as [Hin|Hin]; [by intros c [= <-]|done|by left|].
      right. revert Hin. apply key_of_header_mono. unfold headers_of. simpl.
      rewrite Hs. simpl. intros n Hin. apply elem_of_app. right. done.
    + destruct (IH _ Hrun Hc k Hk) as [Hin|Hin]; [by left|].
      right. revert Hin. apply key_of_header_mono. unfold headers_of. simpl.
      by rewrite Hs.
    + assert (Hheads : ∀ n, n ∈ headers_of st1 links
                            → n ∈ headers_of st (l :: links)).
      { unfold headers_of. simpl. by rewrite Hs, Hn, Hn1. }
      assert (Hname : name ∈ headers_of st (l :: links)).
      { unfold headers_of. rewrite Hn. apply elem_of_app. left.
        by apply list_elem_of_singleton. }
      assert (Hc1 : ∀ c, count st1 = Some c → (1 ≤ c)%Z).
      { destruct Hw as [(_ & -> & _)|(_ & c & Hcs & -> & _)]; [done|].
        intros c' [= <-]. specialize (Hc _ Hcs). lia. }
      destruct (IH _ Hrun Hc1 k Hk) as [Hin|Hin].
      2:{ right. revert Hin. by apply key_of_header_mono. }
      destruct Hw as [(_ & _ & Hcat)|(_ & c & Hcs & _ & Hcat)];
        rewrite Hcat, dict_set_keys in Hin;
        destruct (dict_mem _ (radio_stations st)); try (by left);
        apply elem_of_app in Hin as [?| ->%list_elem_of_singleton];
        try (by left); right; exists name; (split; [done|]).
      * by left.
      * right. exists (c + 1)%Z. split; [|done]. specialize (Hc _ Hcs). lia.
Qed.

(** X3. Every key of the extracted catalog is the text of a station header of
    the anchor sequence, or that text followed by a space and a number that
    is at least 2. *)
Theorem extraction_keys_from_headers
    (patterns : option (list Pattern)) (links : list Anchor) (catalog : dict) :
  download_radio_stations_urls links patterns = Ok catalog →
  ∀ key, key ∈ dict_keys catalog →
    ∃ h, h ∈ links ∧ is_stream h = false
         ∧ (key = text h ∨ ∃ c, (2 ≤ c)%Z ∧ key = suffixed_key (text h) c).
Proof.
  unfold download_radio_stations_urls.
  destruct (for_links patterns links initial_locals) as [st|] eqn:E;
    simpl; [|done].
  intros [= <-] key Hkey.
  destruct (for_links_keys _ _ _ _ E) with (k := key) as [Hin|(n & Hn & Hk)];
    [done|done|by apply elem_of_nil in Hin|].
  unfold headers_of in Hn. simpl in Hn.
  apply list_elem_of_fmap in Hn as (h & -> & Hh).
  apply list_elem_of_In, filter_In in Hh as [Hh Hs].
  exists h. split; [by apply list_elem_of_In|].
  split; [by apply negb_true_iff|done].
Qed.

Lemma extraction_keys_from_headers_witness :
  ∃ h, h ∈ [ {| text := "FIP"; href := "https://www.example.fr/fip" |};
             {| text := "http://direct.example/fip.mp3";
                href := "http://direct.example/fip.mp3" |};
             {| text := "http://direct.example/fip.aac";
                href := "http://direct.example/fip.aac" |} ]
       ∧ is_stream h = false
       ∧ ("FIP 2" = text h ∨ ∃ c, (2 ≤ c)%Z ∧ "FIP 2" = suffixed_key (text h) c).
Proof.
  apply (extraction_keys_from_headers (Some EXCLUDE_HREF_PATTERNS) _
           [("FIP", "http://direct.example/fip.mp3");
            ("FIP 2", "http://direct.example/fip.aac")]).
  - reflexivity.
  - apply elem_of_cons. right. apply elem_of_cons. by left.
Defined.

Lemma loop_body_bound patterns st link :
  bound st → ∃ st', loop_body (Some patterns) st link = Ok st' ∧ bound st'.
Proof.
  intros [[name Hn] [c Hc]]. unfold loop_body.
  destruct (negb (URL_PATTERN_match (text link))).
  { eexists. split; [done|]. split; by eexists. }
  simpl. fold (excluded patterns (href link)).
  destruct (excluded patterns (href link)).
  { eexists. split; [done|]. split; by eexists. }
  rewrite Hn. simpl. destruct (dict_mem name (radio_stations st)).
  - rewrite Hc. simpl. eexists. split; [done|]. split; by eexists.
  - eexists. split; [done|]. split; simpl; by eexists.
Qed.

Lemma for_links_bound patterns links st :
  bound st → ∃ st', for_links (Some patterns) links st = Ok st'.
Proof.
  revert st. induction links as [|l links IH]; intros st Hb; simpl; [eauto|].
  destruct (loop_body_bound patterns st l Hb) as (st1 & -> & Hb1). simpl. eauto.
Qed.

(** X4. With a list of exclude patterns the extraction returns a catalog
    whenever the first anchor that is not discarded is a station header, and
    returns the empty catalog when every anchor is discarded: the unbound
    [station] is the only way it can raise. *)
Theorem extraction_succeeds_after_header
    (patterns : list Pattern) (pre rest : list Anchor) (h : Anchor) :
  Forall (fun l => discarded patterns l = true) pre →
  download_radio_stations_urls pre (Some patterns) = Ok []
  ∧ (is_stream h = false →
     ∃ catalog,
       download_radio_stations_urls (pre ++ h :: rest) (Some patterns)
       = Ok catalog).
Proof.
  intros Hpre. unfold download_radio_stations_urls. split.
  - rewrite <- (app_nil_r pre), for_links_discarded by done. done.
  - intros Hh. rewrite for_links_discarded by done. simpl.
    unfold loop_body at 1. unfold is_stream in Hh. rewrite Hh. simpl.
    edestruct for_links_bound as [st' ->]; [|by eexists].
    split; by eexists.
Qed.

Lemma extraction_succeeds_after_header_witness :
  download_radio_stations_urls
    [ {| text := "http://stream.example/lofi.mp3";
         href := "http://stream.example/-lofi-" |} ]
    (Some EXCLUDE_HREF_PATTERNS) = Ok []
  ∧ ∃ catalog,
      download_radio_stations_urls
        ([ {| text := "http://stream.example/lofi.mp3";
              href := "http://stream.example/-lofi-" |} ]
         ++ {| text := "Nova"; href := "https://www.example.fr/nova" |}
         :: [ {| text := "https://direct.example/nova.mp3";
                 href := "https://direct.example/nova.mp3" |} ])
        (Some EXCLUDE_HREF_PATTERNS)
      = Ok catalog.
Proof.
  destruct (extraction_succeeds_after_header EXCLUDE_HREF_PATTERNS
    [ {| text := "http://stream.example/lofi.mp3";
         href := "http://stream.example/-lofi-" |} ]
    [ {| text := "https://direct.example/nova.mp3";
         href := "https://direct.example/nova.mp3" |} ]
    {| text := "Nova"; href := "https://www.example.fr/nova" |})
    as [H1 H2].
  - repeat constructor.
  - split; [exact H1|]. apply H2. reflexivity.
Defined.

Lemma for_links_no_patterns links st :
  match for_links None links st with
  | Ok st' =>
      existsb is_stream links = false ∧ radio_stations st' = radio_stations st
  | Raise e => existsb is_stream links = true ∧ e = TypeError
  end.
Proof.
  revert st. induction links as [|l links IH]; intros st; simpl; [done|].
  unfold loop_body, is_stream.
  destruct (URL_PATTERN_match (text l)); simpl; [done|].
  exact (IH {| radio_stations := radio_stations st;
               station := Some (text l); count := Some 1%Z |}).
Qed.

(** X5. Called without exclude patterns (the default [None]), the extraction
    raises [TypeError] as soon as the anchor sequence holds a stream link, and
    returns the empty catalog otherwise. *)
Theorem extraction_without_patterns (links : list Anchor) :
  download_radio_stations_urls links None
  = if existsb is_stream links then Raise TypeError else Ok [].
Proof.
  unfold download_radio_stations_urls.
  pose proof (for_links_no_patterns links initial_locals) as H.
  destruct (for_links None links initial_locals) as [st|e]; simpl.
  - destruct H as [-> ->]. done.
  - by destruct H as [-> ->].
Qed.

(** ** Further properties of the read-eval loop *)


Section Loop.
Variable fuzzyfinder : option string → list string → result (list string).
Variable PLAYER : string.
Variable subprocess_run : list string → result unit.
Implicit Types (radio_stations : dict) (station_name : option string).





(** The [try] block once the line is parsed. *)
Lemma try_body_parsed radio_stations user_input cmd station_name :
  parse_user_input user_input = Ok (cmd, station_name) →
  try_body fuzzyfinder PLAYER subprocess_run radio_stations (Ok user_input)
  = match dict_get cmd (COMMANDS fuzzyfinder PLAYER subprocess_run) with
    | Some h => h radio_stations station_name
    | None => ([], Ok tt)
    end.
Proof.
  intros Hp. unfold try_body. cbn [bind]. rewrite Hp.
  unfold dict_mem, dict_index.
  by destruct (dict_get cmd (COMMANDS fuzzyfinder PLAYER subprocess_run)).
Qed.



(** X7. The loop is a state machine over the prompt results.  A script that
    leaves it awaiting input composes with the script that follows: outputs
    are concatenated and prompt counts add up.  Once it has stopped on end of
    input or left on an exception, nothing that follows is read or executed.
    A keyboard interrupt at the prompt costs one prompt and changes nothing
    else; end of input stops the loop. *)
Theorem repl_composes radio_stations (s1 s2 : list (result string)) :
  repl fuzzyfinder PLAYER subprocess_run radio_stations (s1 ++ s2)
  = match repl fuzzyfinder PLAYER subprocess_run radio_stations s1 with
    | (out1, n1, AwaitingInput) =>
        let '(out2, n2, state) := repl fuzzyfinder PLAYER subprocess_run radio_stations s2 in
        (out1 ++ out2, n1 + n2, state)
    | stopped => stopped
    end
  ∧ repl fuzzyfinder PLAYER subprocess_run radio_stations (Raise KeyboardInterrupt :: s2)
    = (let '(out2, n2, state) := repl fuzzyfinder PLAYER subprocess_run radio_stations s2 in
       (out2, S n2, state))
  ∧ repl fuzzyfinder PLAYER subprocess_run radio_stations (Raise EOFError :: s2)
    = ([], 1, Stopped).
Proof.
  split; [|split; [|done]].
  - induction s1 as [|p s1 IH]; simpl.
    + by destruct (repl fuzzyfinder PLAYER subprocess_run radio_stations s2) as [[? ?] ?].
    + destruct (iteration fuzzyfinder PLAYER subprocess_run radio_stations p) as [out [| |e0]];
        [|done..].
      rewrite IH.
      destruct (repl fuzzyfinder PLAYER subprocess_run radio_stations s1) as [[o1 n1] [| |e1]];
        [|done..].
      destruct (repl fuzzyfinder PLAYER subprocess_run radio_stations s2) as [[o2 n2] st2].
      by rewrite app_assoc.
  - simpl. by destruct (repl fuzzyfinder PLAYER subprocess_run radio_stations s2) as [[? ?] ?].
Qed.

(** X8. A line whose first word is not a key of [COMMANDS] is ignored: the
    pass prints nothing, starts nothing, raises nothing, and the loop goes on
    to the next prompt.  The empty line is such a line. *)
Theorem unrecognized_command_ignored radio_stations user_input cmd station_name :
  parse_user_input user_input = Ok (cmd, station_name) →
  cmd ∉ ["play"; "listen"; "show"; "info"; "search"] →
  iteration fuzzyfinder PLAYER subprocess_run radio_stations (Ok user_input) = ([], Continue).
Proof.
  intros Hp Hn. unfold iteration. rewrite (try_body_parsed _ _ _ _ Hp).
  change ["play"; "listen"; "show"; "info"; "search"]
    with (dict_keys (COMMANDS fuzzyfinder PLAYER subprocess_run)) in Hn.
  apply dict_get_None_keys in Hn. by rewrite Hn.
Qed.

(** X9. A [play], [listen], [show] or [info] line without argument hands the
    handler a nil station name; nil is never a key of the catalog, so the
    handler prints the notice for the name [None] and the loop goes on,
    whatever the catalog and the selected player. *)
Theorem missing_argument_notice radio_stations user_input cmd :
  parse_user_input user_input = Ok (cmd, None) →
  cmd ∈ ["play"; "listen"; "show"; "info"] →
  iteration fuzzyfinder PLAYER subprocess_run radio_stations (Ok user_input)
  = ([Print "Unkwnon station: None"], Continue).
Proof.
  intros Hp Hc. unfold iteration. rewrite (try_body_parsed _ _ _ _ Hp).
  repeat (apply elem_of_cons in Hc as [->|Hc]; [done|]).
  by apply elem_of_nil in Hc.
Qed.

(** X10. A [show] or [info] line with an argument prints the name and its
    url when the argument is a key of the catalog and the notice otherwise;
    it starts no player, and the loop goes on.  The default ['Unknown'] of
    the lookup is never printed. *)
Theorem info_line radio_stations user_input cmd name :
  parse_user_input user_input = Ok (cmd, Some name) →
  cmd ∈ ["show"; "info"] →
  iteration fuzzyfinder PLAYER subprocess_run radio_stations (Ok user_input)
  = match dict_get name radio_stations with
    | Some url => ([Print (name +:+ ": " +:+ url)], Continue)
    | None => ([Print ("Unkwnon station: " +:+ name)], Continue)
    end.
Proof.
  intros Hp Hc. unfold iteration. rewrite (try_body_parsed _ _ _ _ Hp).
  assert (Hh : dict_get cmd (COMMANDS fuzzyfinder PLAYER subprocess_run) = Some command_info).
  { repeat (apply elem_of_cons in Hc as [->|Hc]; [done|]).
    by apply elem_of_nil in Hc. }
  rewrite Hh. unfold command_info, known, dict_mem.
  by destruct (dict_get name radio_stations).
Qed.

End Loop.


Lemma unrecognized_command_ignored_witness :
  iteration FuzzyMatcher.call "mpv" (fun _ => Ok tt) [("FIP", "http://direct.example/fip.mp3")]
    (Ok "  stop FIP ")
  = ([], Continue).
Proof.
  apply (unrecognized_command_ignored FuzzyMatcher.call "mpv" (fun _ => Ok tt) _ _ "stop"
           (Some "FIP")).
  - reflexivity.
  - intros H. repeat (apply elem_of_cons in H as [H|H]; [discriminate H|]).
    by apply elem_of_nil in H.
Defined.

Lemma missing_argument_notice_witness :
  iteration FuzzyMatcher.call "mplayer" (fun _ => Ok tt) [("FIP", "http://direct.example/fip.mp3")]
    (Ok " listen ")
  = ([Print "Unkwnon station: None"], Continue).
Proof.
  apply (missing_argument_notice FuzzyMatcher.call "mplayer" (fun _ => Ok tt) _ _ "listen").
  - reflexivity.
  - apply elem_of_cons. right. apply elem_of_cons. by left.
Defined.

Lemma info_line_witness :
  iteration FuzzyMatcher.call "mpv" (fun _ => Ok tt) [("FIP", "http://direct.example/fip.mp3")]
    (Ok "show FIP")
  = ([Print "FIP: http://direct.example/fip.mp3"], Continue).
Proof.
  apply (info_line FuzzyMatcher.call "mpv" (fun _ => Ok tt)
           [("FIP", "http://direct.example/fip.mp3")] "show FIP" "show" "FIP").
  - reflexivity.
  - apply elem_of_cons. by left.
Defined.

(** ** Further properties of [parse_user_input] *)

Lemma word_cons c w :
  Str.isspace c = false → has_whitespace w = false → word (String c w).
Proof. intros Hc Hw. split; [done|]. simpl. by rewrite Hc, Hw. Qed.

(** Every element of [split] is a non-empty string without whitespace. *)
Lemma split_words s : Forall word (Str.split s).
Proof.
  induction s as [|c s IH]; simpl; [constructor|].
  destruct (Str.isspace c) eqn:Hc; [done|].
  destruct (Str.starts_word s).
  - destruct (Str.split s) as [|w ws].
    + constructor; [by apply word_cons|constructor].
    + apply Forall_cons in IH as [[_ Hw] Hws].
      constructor; [by apply word_cons|done].
  - constructor; [by apply word_cons|done].
Qed.

Lemma split_nil s : Str.split s = [] ↔ all_space s = true.
Proof.
  induction s as [|c s IH]; simpl; [done|].
  destruct (Str.isspace c); simpl; [done|]. split; [|done].
  destruct (Str.starts_word s); [by destruct (Str.split s)|done].
Qed.

Lemma rstrip_all_space s : all_space (Str.rstrip s) = true → Str.rstrip s = "".
Proof.
  induction s as [|c s IH]; simpl; [done|].
  destruct (Str.rstrip s) as [|c' r] eqn:E.
  - destruct (Str.isspace c) eqn:Hc; simpl; [done|]. by rewrite Hc.
  - intros [_ H]%andb_true_iff. by specialize (IH H).
Qed.

(** A string that [rstrip] leaves alone has tails that it leaves alone. *)
Lemma rstrip_fixed_tail c s : Str.rstrip (String c s) = String c s → Str.rstrip s = s.
Proof.
  simpl. destruct (Str.rstrip s) as [|c' r].
  - destruct (Str.isspace c); [done|]. by intros [= <-].
  - by intros [= <-].
Qed.

Lemma rstrip_fixed_after s :
  Str.rstrip s = s →
  Str.rstrip (InputParser.after_first_token s) = InputParser.after_first_token s.
Proof.
  induction s as [|c s IH]; [done|]. intros H. simpl.
  destruct (Str.isspace c); [done|]. apply IH. by eapply rstrip_fixed_tail.
Qed.

Lemma rstrip_rstrip s : Str.rstrip (Str.rstrip s) = Str.rstrip s.
Proof.
  induction s as [|c s IH]; simpl; [done|].
  destruct (Str.rstrip s) as [|c' r] eqn:E.
  - destruct (Str.isspace c) eqn:Hc; simpl; [done|]. by rewrite Hc.
  - simpl in *. by rewrite IH.
Qed.

Lemma after_first_token_nonempty s :
  has_whitespace s = true → InputParser.after_first_token s ≠ "".
Proof.
  induction s as [|c s IH]; simpl; [done|].
  destruct (Str.isspace c); [done|]. simpl. apply IH.
Qed.

Lemma after_first_token_word w sp rest :
  has_whitespace w = false → Str.isspace sp = true →
  InputParser.after_first_token (w +:+ String sp rest) = String sp rest.
Proof.
  intros Hw Hsp. induction w as [|c w IH]; rewrite ?app_cons, ?app_empty; simpl.
  - by rewrite Hsp.
  - simpl in Hw. apply orb_false_iff in Hw as [Hc Hw]. rewrite Hc. by apply IH.
Qed.

Lemma join_cons sep w w' ws :
  Str.join sep (w :: w' :: ws) = w +:+ sep +:+ Str.join sep (w' :: ws).
Proof. done. Qed.

(** Splitting what was joined with single spaces gives the words back. *)
Lemma split_join ws : Forall word ws → Str.split (Str.join " " ws) = ws.
Proof.
  induction 1 as [|w ws Hw Hws IH]; [done|].
  destruct ws as [|w' ws]; [by apply split_word|].
  rewrite join_cons.
  rewrite (split_first_token _ (word_starts _ _ Hw)).
  change (" " +:+ Str.join " " (w' :: ws))
    with (String " " (Str.join " " (w' :: ws))).
  rewrite first_token_word, after_first_token_word by (done || apply Hw).
  change (Str.split (String " " (Str.join " " (w' :: ws))))
    with (Str.split (Str.join " " (w' :: ws))).
  by rewrite IH.
Qed.

Lemma rstrip_word w : word w → Str.rstrip w = w.
Proof.
  intros [Hne Hw]. induction w as [|c w IH]; [done|].
  simpl in Hw. apply orb_false_iff in Hw as [Hc Hw].
  change (Str.rstrip (String c w))
    with (match Str.rstrip w with
          | EmptyString => if Str.isspace c then EmptyString else String c EmptyString
          | r => String c r
          end).
  destruct w as [|c' w]; [simpl; by rewrite Hc|].
  rewrite IH by done. done.
Qed.

Lemma rstrip_app s t : t ≠ "" → Str.rstrip t = t → Str.rstrip (s +:+ t) = s +:+ t.
Proof.
  intros Hne Ht. induction s as [|c s IH]; [done|].
  rewrite app_cons. simpl. rewrite IH.
  destruct (s +:+ t) eqn:E; [|done].
  destruct s; [by rewrite app_empty in E|done].
Qed.

Lemma join_words_nonempty w ws : word w → Str.join " " (w :: ws) ≠ "".
Proof.
  intros [Hne _]. destruct w; [done|]. by destruct ws.
Qed.

Lemma rstrip_join ws : Forall word ws → Str.rstrip (Str.join " " ws) = Str.join " " ws.
Proof.
  induction 1 as [|w ws Hw Hws IH]; [done|].
  destruct ws as [|w' ws]; [by apply rstrip_word|].
  rewrite join_cons. rewrite <- app_assoc_string.
  apply rstrip_app; [|done].
  apply Forall_cons in Hws as [Hw' _]. by apply join_words_nonempty.
Qed.

Lemma lstrip_starts_word s : Str.starts_word s = true → Str.lstrip s = s.
Proof.
  destruct s as [|c s]; simpl; [done|].
  by intros ->%negb_true_iff.
Qed.

Lemma strip_join w ws :
  Forall word (w :: ws) → Str.strip (Str.join " " (w :: ws)) = Str.join " " (w :: ws).
Proof.
  intros Hws. unfold Str.strip. rewrite lstrip_starts_word; [by apply rstrip_join|].
  apply Forall_cons in Hws as [Hw _].
  destruct ws as [|w' ws]; [|rewrite join_cons; by apply word_starts].
  destruct Hw as [Hne Hw]. destruct w as [|c w]; [done|].
  simpl in *. by apply orb_false_iff in Hw as [-> _].
Qed.

Lemma word_no_space w : word w → Str.contains " " w = false.
Proof.
  intros [_ Hw]. destruct (Str.contains " " w) eqn:E; [|done].
  apply contains_space_whitespace in E. congruence.
Qed.

Lemma contains_app_space s t : Str.contains " " (s +:+ " " +:+ t) = true.
Proof.
  induction s as [|c s IH]; [done|]. rewrite app_cons. simpl.
  rewrite IH. apply orb_true_r.
Qed.

(** X11. Formatting a command word and argument words with single spaces and
    parsing the line gives the command and the argument back; a command word
    alone parses to itself with a nil argument. *)
Theorem parse_user_input_round_trip (cmd : string) (ws : list string) :
  word cmd → Forall word ws →
  parse_user_input (Str.join " " (cmd :: ws))
  = Ok (cmd, match ws with
             | [] => None
             | _ :: _ => Some (Str.join " " ws)
             end).
Proof.
  intros Hcmd Hws. unfold parse_user_input.
  rewrite strip_join by by constructor.
  destruct ws as [|w ws].
  - simpl. by rewrite word_no_space.
  - rewrite join_cons, contains_app_space. rewrite <- join_cons.
    rewrite split_join by by constructor. done.
Qed.

Lemma parse_user_input_round_trip_witness :
  parse_user_input (Str.join " " ["play"; "France"; "Inter"])
  = Ok ("play", Some (Str.join " " ["France"; "Inter"])).
Proof.
  apply (parse_user_input_round_trip "play" ["France"; "Inter"]).
  - split; [discriminate|reflexivity].
  - repeat constructor; discriminate.
Defined.

(** X12. When [parse_user_input] returns an argument, the command is a single
    word, the argument is not empty and has no whitespace at either end, and
    the words of the trimmed line are the command followed by the words of
    the argument.  When it returns no argument, the command is the trimmed
    line and holds no space. *)
Theorem parse_user_input_shape (user_input cmd : string) (arg : option string) :
  parse_user_input user_input = Ok (cmd, arg) →
  match arg with
  | Some a =>
      word cmd ∧ a ≠ "" ∧ Str.strip a = a
      ∧ Str.split (Str.strip user_input) = cmd :: Str.split a
      ∧ Str.split a ≠ []
  | None => cmd = Str.strip user_input ∧ Str.contains " " cmd = false
  end.
Proof.
  unfold parse_user_input.
  destruct (Str.contains " " (Str.strip user_input)) eqn:Hc.
  2:{ intros [= <- <-]. done. }
  destruct (strip_starts user_input) as [He|Hs].
  { rewrite He in Hc. discriminate Hc. }
  rewrite (split_first_token _ Hs). simpl. intros [= <- <-].
  set (t := Str.strip user_input) in *.
  pose proof (split_words t) as Hall.
  rewrite (split_first_token _ Hs) in Hall.
  apply Forall_cons in Hall as [Hcmd Hrest].
  assert (Hne : Str.split (InputParser.after_first_token t) ≠ []).
  { intros Hnil%split_nil.
    assert (Hfix : Str.rstrip t = t) by apply rstrip_rstrip.
    apply rstrip_fixed_after in Hfix. rewrite <- Hfix in Hnil.
    apply rstrip_all_space in Hnil. rewrite Hfix in Hnil.
    exact (after_first_token_nonempty t (contains_space_whitespace _ Hc) Hnil). }
  destruct (Str.split (InputParser.after_first_token t)) as [|w ws] eqn:E; [done|].
  rewrite split_join by done.
  split; [done|]. split; [|split; [by apply strip_join|done]].
  apply Forall_cons in Hrest as [Hw _]. by apply join_words_nonempty.
Qed.

Lemma parse_user_input_shape_witness :
  word "play" ∧ "France Inter" ≠ "" ∧ Str.strip "France Inter" = "France Inter"
  ∧ Str.split (Str.strip "  play   France Inter  ")
    = "play" :: Str.split "France Inter"
  ∧ Str.split "France Inter" ≠ [].
Proof.
  apply (parse_user_input_shape "  play   France Inter  " "play"
           (Some "France Inter")).
  reflexivity.
Defined.

(** ** Further properties of [get_completions] *)

Lemma contains_app_l c s t : Str.contains c s = true → Str.contains c (s +:+ t) = true.
Proof.
  induction s as [|a s IH]; [done|]. rewrite app_cons. simpl.
  intros [->|H]%orb_true_iff; [done|]. rewrite IH by done. apply orb_true_r.
Qed.

Lemma slice_from_past s (n : nat) : Str.slice_from (String.length s + S n) s = "".
Proof. induction s as [|c s IH]; [done|]. simpl. apply IH. Qed.

Lemma first_token_before w tail :
  has_whitespace w = false → Str.starts_word tail = false →
  InputParser.first_token (w +:+ tail) = w.
Proof.
  intros Hw Ht. induction w as [|c w IH]; rewrite ?app_cons, ?app_empty; simpl.
  - destruct tail as [|c t]; [done|]. simpl in *.
    apply negb_false_iff in Ht. by rewrite Ht.
  - simpl in Hw. apply orb_false_iff in Hw as [Hc Hw]. rewrite Hc. by rewrite IH.
Qed.

Section Completer.
Variable fuzzyfinder : option string → list string → result (list string).

(** X13. When the line before the cursor holds a space and its first word is
    not a command, no completion is produced and the matcher is not
    consulted: the result is the same for every matcher, one that raises
    included.  The first word may end the line or be followed by
    whitespace. *)
Theorem completion_unrecognized_command
    (self : RadioCompleter) (document : Document) (pre cmd tail : string) :
  current_line_before_cursor document = pre +:+ cmd +:+ tail →
  all_space pre = true → word cmd → Str.starts_word tail = false →
  Str.contains " " (current_line_before_cursor document) = true →
  dict_mem cmd (commands self) = false →
  get_completions fuzzyfinder self document = Ok [].
Proof.
  intros Htext Hpre Hcmd Htail Hcontains Hmem.
  unfold get_completions. rewrite Hcontains, Htext.
  rewrite split_all_space by done.
  rewrite (split_first_token _ (word_starts _ _ Hcmd)).
  rewrite first_token_before by (done || apply Hcmd).
  unfold list_index. cbn [lookup list_lookup bind]. by rewrite Hmem.
Qed.

(** X14. When the line before the cursor is nothing but whitespace and holds
    a space, [text_before_cursor.split()] is empty and taking its first
    element raises [IndexError]. *)
Theorem completion_blank_line_raises
    (self : RadioCompleter) (document : Document) :
  all_space (current_line_before_cursor document) = true →
  Str.contains " " (current_line_before_cursor document) = true →
  get_completions fuzzyfinder self document = Raise IndexError.
Proof.
  intros Hall Hcontains. unfold get_completions. rewrite Hcontains.
  apply split_nil in Hall. by rewrite Hall.
Qed.

(** X15. When the line before the cursor is leading whitespace with a space
    in it followed by a recognized command and nothing else, and the cursor
    is at its end, station mode is entered although nothing follows the
    command: the matcher is queried with the empty string, the start position
    computed for the completions is +1, and the constructor of the first
    [Completion] raises [AssertionError]; nothing is suggested.  Without a
    match the result is empty. *)
Theorem completion_anchor_past_line
    (self : RadioCompleter) (document : Document)
    (pre cmd : string) (matches : list string) :
  current_line_before_cursor document = pre +:+ cmd →
  cursor_position document = Str.len (current_line_before_cursor document) →
  all_space pre = true → Str.contains " " pre = true → word cmd →
  dict_mem cmd (commands self) = true →
  fuzzyfinder (Some "") (dict_keys (stations self)) = Ok matches →
  Forall (fun m => is_Some (dict_get m (stations self))) matches →
  get_completions fuzzyfinder self document
  = match matches with
    | [] => Ok []
    | _ :: _ => Raise AssertionError
    end.
Proof.
  intros Htext Hcursor Hpre Hsp Hcmd Hmem Hff Hkeys.
  unfold get_completions. rewrite Hcursor, Htext, (contains_app_l _ _ _ Hsp).
  rewrite split_all_space, lstrip_all_space by done.
  rewrite (split_word _ Hcmd).
  assert (Hl : Str.lstrip cmd = cmd).
  { apply lstrip_starts_word. destruct Hcmd as [Hne Hw].
    destruct cmd as [|c w]; [done|]. simpl in *.
    by apply orb_false_iff in Hw as [-> _]. }
  rewrite Hl. unfold list_index. cbn [lookup list_lookup bind]. rewrite Hmem.
  assert (Hoff : Z.to_nat (Str.len (pre +:+ cmd) - Str.len cmd + Str.len cmd + 1)
                 = (String.length (pre +:+ cmd) + 1)%nat).
  { unfold Str.len. lia. }
  rewrite Hoff, slice_from_past, Hff. cbn [bind].
  replace (- (Str.len (pre +:+ cmd)
              - (Str.len (pre +:+ cmd) - Str.len cmd + Str.len cmd + 1)))%Z
    with 1%Z by lia.
  destruct Hkeys as [|m matches [url Hm] _]; [done|].
  simpl. unfold dict_index. by rewrite Hm.
Qed.

End Completer.

Lemma completion_unrecognized_command_witness :
  get_completions (fun _ _ => Raise TypeError)
    {| commands := COMMANDS FuzzyMatcher.call "mpv" (fun _ => Ok tt);
       stations := [("Nova", "http://nova.example/live.mp3")] |}
    {| current_line_before_cursor := " stop";
       cursor_position := 5;
       word_before_cursor := "stop" |}
  = Ok [].
Proof.
  refine (completion_unrecognized_command (fun _ _ => Raise TypeError)
    {| commands := COMMANDS FuzzyMatcher.call "mpv" (fun _ => Ok tt);
       stations := [("Nova", "http://nova.example/live.mp3")] |}
    {| current_line_before_cursor := " stop";
       cursor_position := 5;
       word_before_cursor := "stop" |}
    " " "stop" "" eq_refl eq_refl _ eq_refl eq_refl eq_refl).
  split; [discriminate|reflexivity].
Defined.

Lemma completion_blank_line_raises_witness :
  get_completions FuzzyMatcher.call
    {| commands := COMMANDS FuzzyMatcher.call "mpv" (fun _ => Ok tt);
       stations := [("Nova", "http://nova.example/live.mp3")] |}
    {| current_line_before_cursor := " ";
       cursor_position := 1;
       word_before_cursor := "" |}
  = Raise IndexError.
Proof.
  apply (completion_blank_line_raises FuzzyMatcher.call); reflexivity.
Defined.

Lemma completion_anchor_past_line_witness :
  get_completions FuzzyMatcher.call
    {| commands := COMMANDS FuzzyMatcher.call "mpv" (fun _ => Ok tt);
       stations := [("Nova", "http://nova.example/live.mp3")] |}
    {| current_line_before_cursor := " play";
       cursor_position := 5;
       word_before_cursor := "play" |}
  = Raise AssertionError.
Proof.
  refine (completion_anchor_past_line FuzzyMatcher.call
    {| commands := COMMANDS FuzzyMatcher.call "mpv" (fun _ => Ok tt);
       stations := [("Nova", "http://nova.example/live.mp3")] |}
    {| current_line_before_cursor := " play";
       cursor_position := 5;
       word_before_cursor := "play" |}
    " " "play" ["Nova"] eq_refl eq_refl eq_refl eq_refl _ eq_refl eq_refl _).
  - split; [discriminate|reflexivity].
  - repeat constructor; by eexists.
Defined.

(** ** The exclude pattern *)

Lemma prefix_split p s : String.prefix p s = true → ∃ t, s = p +:+ t.
Proof.
  revert s. induction p as [|a p IH]; intros s.
  - intros _. by exists s.
  - destruct s as [|b s]; simpl; [done|].
    destruct (ascii_dec a b) as [->|]; [|done].
    intros [t ->]%IH. by exists t.
Qed.

Lemma prefix_app p t : String.prefix p (p +:+ t) = true.
Proof.
  induction p as [|a p IH]; [by destruct t|].
  rewrite app_cons. simpl. by destruct (ascii_dec a a).
Qed.

(** X17. The exclude pattern of [EXCLUDE_HREF_PATTERNS] is found exactly in
    the strings that hold [lofi] between two characters that are neither
    letters nor digits; [lofi] at the very start or end of an href, or next
    to a letter or digit, is not excluded. *)
Theorem lofi_search_spec (s : string) :
  lofi_search s = true
  ↔ ∃ a c d b, s = a +:+ String c ("lofi" +:+ String d b)
               ∧ alnum c = false ∧ alnum d = false.
Proof.
  split.
  - induction s as [|c s IH]; simpl; [done|].
    intros [Hhead|Htail]%orb_true_iff.
    + apply andb_true_iff in Hhead as [Hhead Hd].
      apply andb_true_iff in Hhead as [Hc Hp].
      apply prefix_split in Hp as [t ->].
      change (Str.slice_from 4 ("lofi" +:+ t)) with t in Hd.
      destruct t as [|d b]; [done|].
      exists "", c, d, b. rewrite app_empty.
      split; [done|]. split; by apply negb_true_iff.
    + destruct (IH Htail) as (a & c' & d & b & -> & Hc & Hd).
      exists (String c a), c', d, b. by rewrite app_cons.
  - intros (a & c & d & b & -> & Hc & Hd).
    induction a as [|x a IH].
    + rewrite app_empty.
      change (lofi_search (String c ("lofi" +:+ String d b)))
        with (negb (alnum c) && String.prefix "lofi" ("lofi" +:+ String d b)
              && negb (alnum d) || lofi_search ("lofi" +:+ String d b)).
      by rewrite Hc, Hd, prefix_app.
    + rewrite app_cons. simpl. rewrite IH. apply orb_true_r.
Qed.

(** ** Keys are never removed *)

Lemma for_links_keys_prefix patterns links st st' :
  for_links patterns links st = Ok st' →
  dict_keys (radio_stations st) `prefix_of` dict_keys (radio_stations st').
Proof.
  revert st. induction links as [|l links IH]; intros st; simpl.
  - by intros [= <-].
  - destruct (loop_body patterns st l) as [st1|] eqn:E; simpl; [|done].
    intros Hrun. etrans; [|by apply IH].
    destruct (loop_body_cases _ _ _ _ E)
      as [[_ ->]|[(_ & -> & _)|(_ & _ & name & _ & _ & [(_ & _ & ->)|(_ & c & _ & _ & ->)])]];
      simpl; try done; rewrite dict_set_keys;
      destruct (dict_mem _ (radio_stations st)); try done;
      by apply prefix_app_r.
Qed.

(** X18. The extraction never removes or reorders a key: the keys bound after
    a prefix of the anchor sequence are, in the same order, the first keys of
    the catalog extracted from the whole sequence. *)
Theorem extraction_keeps_keys
    (patterns : option (list Pattern)) (pre post : list Anchor)
    (st : locals) (catalog : dict) :
  for_links patterns pre initial_locals = Ok st →
  download_radio_stations_urls (pre ++ post) patterns = Ok catalog →
  dict_keys (radio_stations st) `prefix_of` dict_keys catalog.
Proof.
  intros Hpre. unfold download_radio_stations_urls.
  rewrite for_links_app, Hpre. simpl.
  destruct (for_links patterns post st) as [st'|] eqn:E; simpl; [|done].
  intros [= <-]. by eapply for_links_keys_prefix.
Qed.

Lemma extraction_keeps_keys_witness :
  dict_keys [("A", "http://a.example/1"); ("A 2", "http://a.example/2")]
  `prefix_of`
  dict_keys [("A", "http://a.example/1"); ("A 2", "http://a.example/3");
             ("B", "http://b.example/1")].
Proof.
  refine (extraction_keeps_keys (Some EXCLUDE_HREF_PATTERNS)
    [ {| text := "A"; href := "http://a.example/" |};
      {| text := "http://a.example/1"; href := "http://a.example/1" |};
      {| text := "http://a.example/2"; href := "http://a.example/2" |} ]
    [ {| text := "A"; href := "http://a.example/" |};
      {| text := "http://a.example/3"; href := "http://a.example/3" |};
      {| text := "B"; href := "http://b.example/" |};
      {| text := "http://b.example/1"; href := "http://b.example/1" |} ]
    {| radio_stations :=
         [("A", "http://a.example/1"); ("A 2", "http://a.example/2")];
       station := Some "A"; count := Some 2%Z |}
    [("A", "http://a.example/1"); ("A 2", "http://a.example/3");
     ("B", "http://b.example/1")]
    eq_refl eq_refl).
Defined.
